(** * zxcrypt superblock manager (system/ulib/zxcrypt/superblock.cpp)

    A shallow embedding of [zxcrypt::Superblock] and the properties of its
    metadata protocol: geometry discovery ([Init]), algorithm selection
    ([Configure]), the replica iterator ([Begin]/[Next]), the block
    assembler, the key-slot sealer and the redundant committer.

    Conventions.
    - [zx_status_t] is a signed integer; the constants carry the values of
      zircon/errors.h.
    - [size_t], [uint64_t] and [zx_off_t] are 64-bit and wrap; [uint32_t]
      wraps at 32 bits.
    - A [crypto::Bytes] buffer is the list of its bytes; a buffer whose
      [get()] is [nullptr] is the empty list.
    - The library-mode instance ([dev_ == nullptr]) is modelled; the driver
      mode differs at the I/O leaves only.
    - Every method is a state transformer over the instance and its
      environment (the backing device, the allocator, the entropy source).
      A method either finishes with a value, aborts the process
      ([ValueOrDie] on an overflowed checked number, a division by zero), or
      exhausts the fuel that bounds its replica loop. *)

From Stdlib Require Import ZArith List Bool Lia String Ascii.
From Stdlib Require Import DecimalString.
Import ListNotations.
Open Scope Z_scope.

(** ** Status codes *)

Definition zx_status_t := Z.

Definition ZX_OK : zx_status_t := 0.
Definition ZX_ERR_INTERNAL : zx_status_t := -1.
Definition ZX_ERR_NOT_SUPPORTED : zx_status_t := -2.
Definition ZX_ERR_NO_MEMORY : zx_status_t := -4.
Definition ZX_ERR_INVALID_ARGS : zx_status_t := -10.
Definition ZX_ERR_BAD_STATE : zx_status_t := -20.
Definition ZX_ERR_ACCESS_DENIED : zx_status_t := -30.
Definition ZX_ERR_IO : zx_status_t := -40.
Definition ZX_ERR_NO_SPACE : zx_status_t := -54.
Definition ZX_ERR_STOP : zx_status_t := -60.
Definition ZX_ERR_NEXT : zx_status_t := -61.

(** ** Machine integers *)

Definition UINT64_MAX : Z := 2 ^ 64 - 1.
Definition wrap64 (z : Z) : Z := z mod 2 ^ 64.
Definition wrap32 (z : Z) : Z := z mod 2 ^ 32.

(** [safeint::CheckedNumeric<size_t>]: [None] once an operation overflowed. *)
Definition CheckedNumeric := option Z.

Definition checked (z : Z) : CheckedNumeric :=
  if (0 <=? z) && (z <? 2 ^ 64) then Some z else None.

Definition checked_mul (a : CheckedNumeric) (b : Z) : CheckedNumeric :=
  match a with Some x => checked (x * b) | None => None end.

Definition checked_add (a : CheckedNumeric) (b : Z) : CheckedNumeric :=
  match a with Some x => checked (x + b) | None => None end.

(** ** Byte buffers ([crypto::Bytes]) *)

Definition Bytes := list Z.

Definition len (b : Bytes) : Z := Z.of_nat (List.length b).

(** [Resize(n)]: keeps the common prefix, zero-fills the growth. *)
Definition Bytes_Resize (n : Z) (b : Bytes) : Bytes :=
  firstn (Z.to_nat n) b ++ repeat 0 (Z.to_nat n - List.length b).

(** [memcpy(dst + off, src, len(src))] inside a buffer. *)
Definition memcpy_at (off : Z) (src dst : Bytes) : Bytes :=
  firstn (Z.to_nat off) dst ++ src
    ++ skipn (Z.to_nat off + List.length src) dst.

(** [Copy(src, n)] from a raw pointer: the first [n] bytes. *)
Definition Bytes_slice (off n : Z) (b : Bytes) : Bytes :=
  firstn (Z.to_nat n) (skipn (Z.to_nat off) b).

Fixpoint Bytes_eqb (a b : Bytes) : bool :=
  match a, b with
  | [], [] => true
  | x :: a', y :: b' => (x =? y) && Bytes_eqb a' b'
  | _, _ => false
  end.

(** [buf[i] = f(buf[i])]. *)
Fixpoint Bytes_update (i : nat) (f : Z -> Z) (b : Bytes) : Bytes :=
  match b, i with
  | [], _ => []
  | x :: b', O => f x :: b'
  | x :: b', S i' => x :: Bytes_update i' f b'
  end.

(** [htonl] followed by [memcpy] of the four bytes, and its inverse. *)
Definition htonl_bytes (v : Z) : Bytes :=
  [Z.land (Z.shiftr v 24) 255; Z.land (Z.shiftr v 16) 255;
   Z.land (Z.shiftr v 8) 255; Z.land v 255].

Definition ntohl_bytes (b : Bytes) : Z :=
  match b with
  | [b0; b1; b2; b3] =>
      Z.lor (Z.shiftl b0 24)
        (Z.lor (Z.shiftl b1 16) (Z.lor (Z.shiftl b2 8) b3))
  | _ => 0
  end.

(** ** Constants of the format *)

Definition GUID_LEN : Z := 16.
Definition kNumSlots : Z := 16.
Definition kReservedPairs : Z := 2.
Definition kMaxLabelLen : Z := 16.
Definition kHeaderLen : Z := GUID_LEN + GUID_LEN + 4.

(** Modelled from the spec: the enumeration [Superblock::Version] is declared
    in zxcrypt/superblock.h; its single member has the value 1. *)
Definition Version := Z.
Definition kAES256_XTS_SHA256 : Version := 1.
Definition kDefaultVersion : Version := kAES256_XTS_SHA256.

Inductive AEAD_Algorithm := AEAD_kUninitialized | kAES128_GCM_SIV.
Inductive Cipher_Algorithm := Cipher_kUninitialized | kAES256_XTS.
Inductive digest_Algorithm := digest_kUninitialized | kSHA256.

(** ** The instance *)

Record block_info_t := mk_blk { block_count : Z; block_size : Z }.
Record fvm_info_t := mk_fvm { slice_size : Z; vslice_count : Z }.

Record Superblock := mkSuperblock {
  blk_ : block_info_t;
  fvm_ : fvm_info_t;
  has_fvm_ : bool;
  block_ : Bytes;
  offset_ : Z;
  guid_ : Bytes;
  header_ : Bytes;
  aead_ : AEAD_Algorithm;
  wrap_key_ : Bytes;
  wrap_iv_ : Bytes;
  cipher_ : Cipher_Algorithm;
  data_key_ : Bytes;
  data_iv_ : Bytes;
  slot_len_ : Z;
  digest_ : digest_Algorithm;
  digest_len_ : Z
}.

Definition set_blk_ v s := mkSuperblock v (fvm_ s) (has_fvm_ s) (block_ s) (offset_ s) (guid_ s) (header_ s) (aead_ s) (wrap_key_ s) (wrap_iv_ s) (cipher_ s) (data_key_ s) (data_iv_ s) (slot_len_ s) (digest_ s) (digest_len_ s).
Definition set_fvm_ v s := mkSuperblock (blk_ s) v (has_fvm_ s) (block_ s) (offset_ s) (guid_ s) (header_ s) (aead_ s) (wrap_key_ s) (wrap_iv_ s) (cipher_ s) (data_key_ s) (data_iv_ s) (slot_len_ s) (digest_ s) (digest_len_ s).
Definition set_has_fvm_ v s := mkSuperblock (blk_ s) (fvm_ s) v (block_ s) (offset_ s) (guid_ s) (header_ s) (aead_ s) (wrap_key_ s) (wrap_iv_ s) (cipher_ s) (data_key_ s) (data_iv_ s) (slot_len_ s) (digest_ s) (digest_len_ s).
Definition set_block_ v s := mkSuperblock (blk_ s) (fvm_ s) (has_fvm_ s) v (offset_ s) (guid_ s) (header_ s) (aead_ s) (wrap_key_ s) (wrap_iv_ s) (cipher_ s) (data_key_ s) (data_iv_ s) (slot_len_ s) (digest_ s) (digest_len_ s).
Definition set_offset_ v s := mkSuperblock (blk_ s) (fvm_ s) (has_fvm_ s) (block_ s) v (guid_ s) (header_ s) (aead_ s) (wrap_key_ s) (wrap_iv_ s) (cipher_ s) (data_key_ s) (data_iv_ s) (slot_len_ s) (digest_ s) (digest_len_ s).
Definition set_guid_ v s := mkSuperblock (blk_ s) (fvm_ s) (has_fvm_ s) (block_ s) (offset_ s) v (header_ s) (aead_ s) (wrap_key_ s) (wrap_iv_ s) (cipher_ s) (data_key_ s) (data_iv_ s) (slot_len_ s) (digest_ s) (digest_len_ s).
Definition set_header_ v s := mkSuperblock (blk_ s) (fvm_ s) (has_fvm_ s) (block_ s) (offset_ s) (guid_ s) v (aead_ s) (wrap_key_ s) (wrap_iv_ s) (cipher_ s) (data_key_ s) (data_iv_ s) (slot_len_ s) (digest_ s) (digest_len_ s).
Definition set_aead_ v s := mkSuperblock (blk_ s) (fvm_ s) (has_fvm_ s) (block_ s) (offset_ s) (guid_ s) (header_ s) v (wrap_key_ s) (wrap_iv_ s) (cipher_ s) (data_key_ s) (data_iv_ s) (slot_len_ s) (digest_ s) (digest_len_ s).
Definition set_wrap_key_ v s := mkSuperblock (blk_ s) (fvm_ s) (has_fvm_ s) (block_ s) (offset_ s) (guid_ s) (header_ s) (aead_ s) v (wrap_iv_ s) (cipher_ s) (data_key_ s) (data_iv_ s) (slot_len_ s) (digest_ s) (digest_len_ s).
Definition set_wrap_iv_ v s := mkSuperblock (blk_ s) (fvm_ s) (has_fvm_ s) (block_ s) (offset_ s) (guid_ s) (header_ s) (aead_ s) (wrap_key_ s) v (cipher_ s) (data_key_ s) (data_iv_ s) (slot_len_ s) (digest_ s) (digest_len_ s).
Definition set_cipher_ v s := mkSuperblock (blk_ s) (fvm_ s) (has_fvm_ s) (block_ s) (offset_ s) (guid_ s) (header_ s) (aead_ s) (wrap_key_ s) (wrap_iv_ s) v (data_key_ s) (data_iv_ s) (slot_len_ s) (digest_ s) (digest_len_ s).
Definition set_data_key_ v s := mkSuperblock (blk_ s) (fvm_ s) (has_fvm_ s) (block_ s) (offset_ s) (guid_ s) (header_ s) (aead_ s) (wrap_key_ s) (wrap_iv_ s) (cipher_ s) v (data_iv_ s) (slot_len_ s) (digest_ s) (digest_len_ s).
Definition set_data_iv_ v s := mkSuperblock (blk_ s) (fvm_ s) (has_fvm_ s) (block_ s) (offset_ s) (guid_ s) (header_ s) (aead_ s) (wrap_key_ s) (wrap_iv_ s) (cipher_ s) (data_key_ s) v (slot_len_ s) (digest_ s) (digest_len_ s).
Definition set_slot_len_ v s := mkSuperblock (blk_ s) (fvm_ s) (has_fvm_ s) (block_ s) (offset_ s) (guid_ s) (header_ s) (aead_ s) (wrap_key_ s) (wrap_iv_ s) (cipher_ s) (data_key_ s) (data_iv_ s) v (digest_ s) (digest_len_ s).
Definition set_digest_ v s := mkSuperblock (blk_ s) (fvm_ s) (has_fvm_ s) (block_ s) (offset_ s) (guid_ s) (header_ s) (aead_ s) (wrap_key_ s) (wrap_iv_ s) (cipher_ s) (data_key_ s) (data_iv_ s) (slot_len_ s) v (digest_len_ s).
Definition set_digest_len_ v s := mkSuperblock (blk_ s) (fvm_ s) (has_fvm_ s) (block_ s) (offset_ s) (guid_ s) (header_ s) (aead_ s) (wrap_key_ s) (wrap_iv_ s) (cipher_ s) (data_key_ s) (data_iv_ s) (slot_len_ s) (digest_ s) v.

(** ** The environment *)

(** The first range of an [IOCTL_BLOCK_FVM_VSLICE_QUERY] response. *)
Record query_response_t := mk_resp {
  resp_count : Z;
  range_count : Z;
  range_allocated : bool
}.

(** The backing device, the allocator and the entropy source.  The device
    is kept at block granularity: [media off] are the bytes a read at byte
    offset [off] can deliver (fewer than asked for is a short read),
    [read_ok]/[write_ok] tell whether the transfer at an offset goes
    through, and [written] records the offset of every [Write] call, the
    latest first. *)
Record Env := mkEnv {
  info_reply : zx_status_t * block_info_t;
  fvm_reply : zx_status_t * fvm_info_t;
  vslice_reply : zx_status_t * query_response_t;
  extend_reply : zx_status_t;
  alloc_ok : Z -> bool;
  read_ok : Z -> bool;
  write_ok : Z -> bool;
  media : Z -> Bytes;
  written : list Z;
  entropy : nat -> Z;
  drawn : nat
}.

Definition set_media v e := mkEnv (info_reply e) (fvm_reply e) (vslice_reply e) (extend_reply e) (alloc_ok e) (read_ok e) (write_ok e) v (written e) (entropy e) (drawn e).
Definition set_written v e := mkEnv (info_reply e) (fvm_reply e) (vslice_reply e) (extend_reply e) (alloc_ok e) (read_ok e) (write_ok e) (media e) v (entropy e) (drawn e).
Definition set_drawn v e := mkEnv (info_reply e) (fvm_reply e) (vslice_reply e) (extend_reply e) (alloc_ok e) (read_ok e) (write_ok e) (media e) (written e) (entropy e) v.
Definition set_vslice_reply v e := mkEnv (info_reply e) (fvm_reply e) v (extend_reply e) (alloc_ok e) (read_ok e) (write_ok e) (media e) (written e) (entropy e) (drawn e).

Record State := mkState { self : Superblock; env : Env }.

(** ** Outcomes and the method monad *)

Inductive outcome (A : Type) :=
| Done (a : A) (s : State)
| Abort
| OutOfFuel.
Arguments Done {A} a s.
Arguments Abort {A}.
Arguments OutOfFuel {A}.

Definition M (A : Type) := State -> outcome A.

Definition ret {A} (a : A) : M A := fun s => Done a s.

Definition bind {A B} (m : M A) (k : A -> M B) : M B :=
  fun s => match m s with
           | Done a s' => k a s'
           | Abort => Abort
           | OutOfFuel => OutOfFuel
           end.

Notation "x <- m ;; k" := (bind m (fun x => k))
  (at level 61, m at next level, right associativity).
Notation "m ;;; k" := (bind m (fun _ => k))
  (at level 61, right associativity).

Definition abort {A} : M A := fun _ => Abort.
Definition get_self : M Superblock := fun s => Done (self s) s.
Definition get_env : M Env := fun s => Done (env s) s.
Definition upd_self (f : Superblock -> Superblock) : M unit :=
  fun s => Done tt (mkState (f (self s)) (env s)).
Definition upd_env (f : Env -> Env) : M unit :=
  fun s => Done tt (mkState (self s) (f (env s))).

(** [if ((rc = m) != ZX_OK) return rc; k]. *)
Definition check (m : M zx_status_t) (k : M zx_status_t) : M zx_status_t :=
  rc <- m ;; if rc =? ZX_OK then k else ret rc.

Notation "'chk' m ;; k" := (check m k)
  (at level 61, m at next level, right associativity).

Definition udiv (a b : Z) : M Z := if b =? 0 then abort else ret (a / b).
Definition umod (a b : Z) : M Z := if b =? 0 then abort else ret (a mod b).

(** [CheckedNumeric::ValueOrDie]. *)
Definition ValueOrDie (c : CheckedNumeric) : M Z :=
  match c with Some v => ret v | None => abort end.

(** Modelled from the spec: [crypto::Bytes::Randomize] lives in the crypto
    library; it overwrites the buffer with fresh random bytes, here the next
    [n] draws of the entropy source. *)
Definition random_bytes (e : Env) (n : nat) : Bytes :=
  map (fun i => entropy e (drawn e + i)%nat mod 256) (seq 0 n).

Definition draw (n : nat) : M Bytes :=
  e <- get_env ;;
  upd_env (set_drawn (drawn e + n)%nat) ;;;
  ret (random_bytes e n).

(** Modelled from the spec: [crypto::Bytes::Split(&tail)] lives in the crypto
    library; it moves the last [len(tail)] bytes of the buffer into [tail]
    and fails when the buffer is shorter than that. *)
Definition ZX_ERR_OUT_OF_RANGE : zx_status_t := -14.

Definition Bytes_Split (n : Z) (b : Bytes) : zx_status_t * (Bytes * Bytes) :=
  if len b <? n then (ZX_ERR_OUT_OF_RANGE, (b, []))
  else (ZX_OK, (firstn (Z.to_nat (len b - n)) b,
                skipn (Z.to_nat (len b - n)) b)).

(** [snprintf(label, kMaxLabelLen, fmt "%" PRIu64, slot)]. *)
Definition kWrapKeyLabel : string := "wrap key ".
Definition kWrapIvLabel : string := "wrap iv ".

Definition snprintf_label (fmt : string) (slot : Z) : string :=
  substring 0 (Z.to_nat (kMaxLabelLen - 1))
    (fmt ++ NilEmpty.string_of_uint (N.to_uint (Z.to_N slot))).

(** The result of an ioctl: negative results are errors, anything else is
    [ZX_OK] ([Superblock::Ioctl]). *)
Definition Ioctl (reply : Z) : zx_status_t :=
  if reply <? 0 then reply else ZX_OK.

(** [Superblock::Reset].  [header_] and [digest_len_] are not touched. *)
Definition Reset (s : Superblock) : Superblock :=
  mkSuperblock (mk_blk 0 0) (mk_fvm 0 0) false [] UINT64_MAX []
    (header_ s) AEAD_kUninitialized [] [] Cipher_kUninitialized [] [] 0
    digest_kUninitialized (digest_len_ s).

(** The instance the constructors build. *)
Definition new_Superblock : Superblock :=
  Reset (mkSuperblock (mk_blk 0 0) (mk_fvm 0 0) false [] 0 [] []
           AEAD_kUninitialized [] [] Cipher_kUninitialized [] [] 0
           digest_kUninitialized 0).

(** ** The replica iterator *)

Definition Begin (s : Superblock) : zx_status_t * Superblock :=
  if slice_size (fvm_ s) =? 0 then (ZX_ERR_STOP, s)
  else (ZX_ERR_NEXT, set_offset_ 0 s).

(** [None]: the remainder by a zero slice size. *)
Definition Next (s : Superblock) : option (zx_status_t * Superblock) :=
  let s1 := set_offset_ (wrap64 (offset_ s + len (block_ s))) s in
  if slice_size (fvm_ s1) =? 0 then None
  else
    let slice_offset := offset_ s1 mod slice_size (fvm_ s1) in
    if negb (slice_offset =? 0) && (slice_offset <? slice_size (fvm_ s1))
    then Some (ZX_ERR_NEXT, s1)
    else if offset_ s1 <=? slice_size (fvm_ s1)
    then Some (ZX_ERR_NEXT,
               set_offset_ (wrap64 ((vslice_count (fvm_ s1) + 1)
                                    * slice_size (fvm_ s1))) s1)
    else Some (ZX_ERR_STOP, s1).

Definition BeginM : M zx_status_t :=
  fun s => let (rc, sb) := Begin (self s) in Done rc (mkState sb (env s)).

Definition NextM : M zx_status_t :=
  fun s => match Next (self s) with
           | Some (rc, sb) => Done rc (mkState sb (env s))
           | None => Abort
           end.

(** [for (rc = ...; rc == ZX_ERR_NEXT; rc = Next()) body]: the body yields
    [Some r] when it returns [r] from the enclosing method and [None] when
    it falls through or continues. *)
Fixpoint for_next (fuel : nat) (body : M (option zx_status_t))
    (rc : zx_status_t) : M (option zx_status_t) :=
  match fuel with
  | O => fun _ => OutOfFuel
  | S fuel' =>
      if rc =? ZX_ERR_NEXT then
        r <- body ;;
        match r with
        | Some v => ret (Some v)
        | None => rc' <- NextM ;; for_next fuel' body rc'
        end
      else ret None
  end.

Definition for_locations (fuel : nat) (body : M (option zx_status_t))
    : M (option zx_status_t) :=
  rc <- BeginM ;; for_next fuel body rc.

(** The offsets the loop visits: the loop whose body notes [offset_]. *)
Fixpoint iterate (fuel : nat) (rc : zx_status_t) (s : Superblock)
    : option (list Z) :=
  match fuel with
  | O => None
  | S fuel' =>
      if rc =? ZX_ERR_NEXT then
        match Next s with
        | Some (rc', s') => option_map (cons (offset_ s)) (iterate fuel' rc' s')
        | None => None
        end
      else Some []
  end.

Definition locations (fuel : nat) (s : Superblock) : option (list Z) :=
  let (rc, s') := Begin s in iterate fuel rc s'.

(** ** Device methods *)

Definition Read : M zx_status_t :=
  s <- get_self ;;
  e <- get_env ;;
  if negb (read_ok e (offset_ s)) then ret ZX_ERR_IO
  else
    let got := firstn (List.length (block_ s)) (media e (offset_ s)) in
    upd_self (set_block_ (got ++ skipn (List.length got) (block_ s))) ;;;
    if (List.length got =? List.length (block_ s))%nat then ret ZX_OK
    else ret ZX_ERR_IO.

Definition Write : M zx_status_t :=
  s <- get_self ;;
  e <- get_env ;;
  upd_env (set_written (offset_ s :: written e)) ;;;
  if write_ok e (offset_ s) then
    upd_env (set_media (fun o => if o =? offset_ s then block_ s
                                 else media e o)) ;;;
    ret ZX_OK
  else ret ZX_ERR_IO.

(** ** The methods of [Superblock] *)

(** What the file takes from outside: [PAGE_SIZE] (zircon/compiler.h),
    [kTypeGuid] (zxcrypt/superblock.h) and the crypto library.

    - The six lengths are what [crypto::AEAD::GetKeyLen] and the like report
      for the algorithms of version 1.
    - [crypto::HKDF]: [Init(digest, key, salt)] yields the extracted key or
      an error; [Derive(label, &out)] fills [out] with [len(out)] bytes.
    - [crypto::AEAD]: [InitSeal(aead, key, iv)] and [InitOpen(aead, key)]
      check their arguments; [SetAD(ad)] followed by
      [Seal(ptext, &iv, &ctext)] yields the nonce used and the ciphertext
      with its tag; [SetAD(ad)] followed by [Open(iv, ctext, &ptext)] yields
      the plaintext. *)
Record Platform := mkPlatform {
  p_PAGE_SIZE : Z;
  p_kTypeGuid : Bytes;
  p_aead_key_len : Z;
  p_aead_iv_len : Z;
  p_aead_tag_len : Z;
  p_cipher_key_len : Z;
  p_cipher_iv_len : Z;
  p_sha256_len : Z;
  p_HKDF_Init : digest_Algorithm -> Bytes -> Bytes -> zx_status_t * Bytes;
  p_HKDF_Derive : Bytes -> string -> Z -> zx_status_t * Bytes;
  p_AEAD_InitSeal : AEAD_Algorithm -> Bytes -> Bytes -> zx_status_t;
  p_AEAD_Seal : AEAD_Algorithm -> Bytes -> Bytes -> Bytes -> Bytes
                -> zx_status_t * (Bytes * Bytes);
  p_AEAD_InitOpen : AEAD_Algorithm -> Bytes -> zx_status_t;
  p_AEAD_Open : AEAD_Algorithm -> Bytes -> Bytes -> Bytes -> Bytes
                -> zx_status_t * Bytes
}.

Section Methods.

Variable P : Platform.

Local Notation "'PAGE_SIZE'" := (p_PAGE_SIZE P).
Local Notation "'kTypeGuid'" := (p_kTypeGuid P).
Local Notation "'HKDF_Init'" := (p_HKDF_Init P).
Local Notation "'HKDF_Derive'" := (p_HKDF_Derive P).
Local Notation "'AEAD_InitSeal'" := (p_AEAD_InitSeal P).
Local Notation "'AEAD_Seal'" := (p_AEAD_Seal P).
Local Notation "'AEAD_InitOpen'" := (p_AEAD_InitOpen P).
Local Notation "'AEAD_Open'" := (p_AEAD_Open P).

Definition AEAD_GetKeyLen (a : AEAD_Algorithm) : zx_status_t * Z :=
  match a with
  | kAES128_GCM_SIV => (ZX_OK, p_aead_key_len P)
  | AEAD_kUninitialized => (ZX_ERR_INVALID_ARGS, 0)
  end.
Definition AEAD_GetIVLen (a : AEAD_Algorithm) : zx_status_t * Z :=
  match a with
  | kAES128_GCM_SIV => (ZX_OK, p_aead_iv_len P)
  | AEAD_kUninitialized => (ZX_ERR_INVALID_ARGS, 0)
  end.
Definition AEAD_GetTagLen (a : AEAD_Algorithm) : zx_status_t * Z :=
  match a with
  | kAES128_GCM_SIV => (ZX_OK, p_aead_tag_len P)
  | AEAD_kUninitialized => (ZX_ERR_INVALID_ARGS, 0)
  end.
Definition Cipher_GetKeyLen (c : Cipher_Algorithm) : zx_status_t * Z :=
  match c with
  | kAES256_XTS => (ZX_OK, p_cipher_key_len P)
  | Cipher_kUninitialized => (ZX_ERR_INVALID_ARGS, 0)
  end.
Definition Cipher_GetIVLen (c : Cipher_Algorithm) : zx_status_t * Z :=
  match c with
  | kAES256_XTS => (ZX_OK, p_cipher_iv_len P)
  | Cipher_kUninitialized => (ZX_ERR_INVALID_ARGS, 0)
  end.
Definition digest_GetDigestLen (d : digest_Algorithm) : zx_status_t * Z :=
  match d with
  | kSHA256 => (ZX_OK, p_sha256_len P)
  | digest_kUninitialized => (ZX_ERR_INVALID_ARGS, 0)
  end.

(** [buf.Resize(n)] on a member buffer; the allocator may refuse. *)
Definition Resize (n : Z) (get : Superblock -> Bytes)
    (set : Bytes -> Superblock -> Superblock) : M zx_status_t :=
  e <- get_env ;;
  if alloc_ok e n then
    upd_self (fun s => set (Bytes_Resize n (get s)) s) ;;; ret ZX_OK
  else ret ZX_ERR_NO_MEMORY.

(** [buf.Randomize()] on a member buffer. *)
Definition Randomize (get : Superblock -> Bytes)
    (set : Bytes -> Superblock -> Superblock) : M zx_status_t :=
  s <- get_self ;;
  r <- draw (List.length (get s)) ;;
  upd_self (set r) ;;; ret ZX_OK.

(** *** Init *)

(** The body of [Init] below the scope guard.  The boolean tells whether the
    guard is still armed when the body returns. *)
Definition Init_body : M (zx_status_t * bool) :=
  e <- get_env ;;
  let rc := Ioctl (fst (info_reply e)) in
  if rc <? 0 then ret (rc, true) else
  upd_self (set_blk_ (mk_blk (wrap64 (block_count (snd (info_reply e))))
                             (wrap32 (block_size (snd (info_reply e)))))) ;;;
  s <- get_self ;;
  aligned <-
    (if block_size (blk_ s) <? PAGE_SIZE then
       m <- umod PAGE_SIZE (block_size (blk_ s)) ;;
       if negb (m =? 0) then ret false
       else
         upd_self (set_blk_
           (mk_blk (block_count (blk_ s) / (PAGE_SIZE / block_size (blk_ s)))
                   PAGE_SIZE)) ;;;
         ret true
     else
       m <- umod (block_size (blk_ s)) PAGE_SIZE ;;
       ret (m =? 0)) ;;
  if negb aligned then ret (ZX_ERR_NOT_SUPPORTED, true) else
  s <- get_self ;;
  rc <- Resize (block_size (blk_ s)) block_ set_block_ ;;
  if negb (rc =? ZX_OK) then ret (rc, true) else
  let reserved_size :=
    checked_mul (checked (block_size (blk_ s))) kReservedPairs in
  e <- get_env ;;
  let rc := Ioctl (fst (fvm_reply e)) in
  returned <-
  (if rc =? ZX_OK then
     upd_self (set_fvm_ (mk_fvm (wrap64 (slice_size (snd (fvm_reply e))))
                                (wrap64 (vslice_count (snd (fvm_reply e)))))) ;;;
     s <- get_self ;;
     reserved <- ValueOrDie reserved_size ;;
     if (slice_size (fvm_ s) <? reserved) || (vslice_count (fvm_ s) <? 2)
     then ret (Some (ZX_ERR_NO_SPACE, true)) else
     let rc := Ioctl (fst (vslice_reply e)) in
     if rc <? 0 then ret (Some (rc, true)) else
     let response := snd (vslice_reply e) in
     if (resp_count response =? 0) || (range_count response =? 0)
     then ret (Some (ZX_ERR_INTERNAL, true)) else
     if negb (range_allocated response) && (Ioctl (extend_reply e) <? 0)
     then ret (Some (Ioctl (extend_reply e), true)) else
     (if negb (range_allocated response)
      then upd_env (set_vslice_reply
                      (fst (vslice_reply e),
                       mk_resp (resp_count response) (range_count response)
                               true))
      else ret tt) ;;;
     upd_self (set_has_fvm_ true) ;;;
     ret None
   else if rc =? ZX_ERR_NOT_SUPPORTED then
     s <- get_self ;;
     if block_count (blk_ s) / 2 <? kReservedPairs
     then ret (Some (ZX_ERR_NO_SPACE, true)) else
     reserved <- ValueOrDie reserved_size ;;
     upd_self (set_fvm_ (mk_fvm reserved
                                (block_count (blk_ s) / kReservedPairs))) ;;;
     upd_self (set_has_fvm_ false) ;;;
     ret None
   else ret (Some (rc, true))) ;;
  match returned with
  | Some r => ret r
  | None =>
      s <- get_self ;;
      upd_self (set_fvm_ (mk_fvm (slice_size (fvm_ s))
                                 (wrap64 (vslice_count (fvm_ s) - 2)))) ;;;
      q <- udiv (slice_size (fvm_ s)) (block_size (blk_ s)) ;;
      upd_self (set_blk_ (mk_blk (wrap64 (block_count (blk_ s) - q * 2))
                                 (block_size (blk_ s)))) ;;;
      (* cleanup.cancel() *)
      ret (ZX_OK, false)
  end.

(** [Init]: [Reset], the body, and the guard's [Reset] at scope exit unless
    it was cancelled. *)
Definition Init : M zx_status_t :=
  upd_self Reset ;;;
  r <- Init_body ;;
  (if snd r : bool then upd_self Reset else ret tt) ;;;
  ret (fst r).

(** *** Configure and key derivation *)

Definition GetDigestLen_member : M zx_status_t :=
  s <- get_self ;;
  let r := digest_GetDigestLen (digest_ s) in
  if fst r =? ZX_OK then upd_self (set_digest_len_ (snd r)) ;;; ret ZX_OK
  else ret (fst r).

Definition Configure (version : Version) : M zx_status_t :=
  if version =? kAES256_XTS_SHA256 then
    upd_self (fun s => set_digest_ kSHA256
                         (set_cipher_ kAES256_XTS
                            (set_aead_ kAES128_GCM_SIV s))) ;;;
    s <- get_self ;;
    let wrap_key_len := AEAD_GetKeyLen (aead_ s) in
    let wrap_iv_len := AEAD_GetIVLen (aead_ s) in
    let tag_len := AEAD_GetTagLen (aead_ s) in
    let data_key_len := Cipher_GetKeyLen (cipher_ s) in
    let data_iv_len := Cipher_GetIVLen (cipher_ s) in
    chk ret (fst wrap_key_len) ;;
    chk ret (fst wrap_iv_len) ;;
    chk ret (fst tag_len) ;;
    chk ret (fst data_key_len) ;;
    chk ret (fst data_iv_len) ;;
    chk GetDigestLen_member ;;
    chk Resize (snd wrap_key_len) wrap_key_ set_wrap_key_ ;;
    chk Resize (snd wrap_iv_len) wrap_iv_ set_wrap_iv_ ;;
    chk Resize (snd data_key_len) data_key_ set_data_key_ ;;
    chk Resize (snd data_iv_len) data_iv_ set_data_iv_ ;;
    upd_self (set_slot_len_
                (wrap64 (snd data_key_len + snd data_iv_len + snd tag_len))) ;;;
    s <- get_self ;;
    total <- ValueOrDie
               (checked_add (checked_mul (checked (slot_len_ s)) kNumSlots)
                            kHeaderLen) ;;
    if block_size (blk_ s) <? total then ret ZX_ERR_NOT_SUPPORTED
    else ret ZX_OK
  else ret ZX_ERR_NOT_SUPPORTED.

Definition DeriveSlotKeys (key : Bytes) (slot : Z) : M zx_status_t :=
  s <- get_self ;;
  let hkdf := HKDF_Init (digest_ s) key (guid_ s) in
  if negb (fst hkdf =? ZX_OK) then ret (fst hkdf) else
  let k := HKDF_Derive (snd hkdf) (snprintf_label kWrapKeyLabel slot)
                       (len (wrap_key_ s)) in
  if negb (fst k =? ZX_OK) then ret (fst k) else
  upd_self (set_wrap_key_ (snd k)) ;;;
  let i := HKDF_Derive (snd hkdf) (snprintf_label kWrapIvLabel slot)
                       (len (wrap_iv_ s)) in
  if negb (fst i =? ZX_OK) then ret (fst i) else
  upd_self (set_wrap_iv_ (snd i)) ;;;
  ret ZX_OK.

(** *** Block methods *)

Definition slot_off (s : Superblock) (slot : Z) : Z :=
  wrap64 (kHeaderLen + wrap64 (slot_len_ s * slot)).

Definition CreateBlock : M zx_status_t :=
  chk Randomize block_ set_block_ ;;
  upd_self (fun s => set_block_
              (memcpy_at 0 (Bytes_slice 0 GUID_LEN kTypeGuid) (block_ s)) s) ;;;
  g <- draw (Z.to_nat GUID_LEN) ;;
  upd_self (set_guid_ g) ;;;
  upd_self (fun s => set_guid_
              (Bytes_update 6 (fun b => Z.lor (Z.land b 0x0F) 0x40) (guid_ s))
              s) ;;;
  upd_self (fun s => set_guid_
              (Bytes_update 8 (fun b => Z.lor (Z.land b 0x3F) 0x80) (guid_ s))
              s) ;;;
  upd_self (fun s => set_block_
              (memcpy_at GUID_LEN (Bytes_slice 0 GUID_LEN (guid_ s)) (block_ s))
              s) ;;;
  chk Configure kDefaultVersion ;;
  upd_self (fun s => set_block_
              (memcpy_at (GUID_LEN + GUID_LEN) (htonl_bytes kDefaultVersion)
                         (block_ s)) s) ;;;
  chk Randomize data_key_ set_data_key_ ;;
  chk Randomize data_iv_ set_data_iv_ ;;
  upd_self (fun s => set_header_ (Bytes_slice 0 kHeaderLen (block_ s)) s) ;;;
  ret ZX_OK.

Definition CommitBlock_body (block : Bytes) : M (option zx_status_t) :=
  r <- Read ;;
  s <- get_self ;;
  if (r =? ZX_OK) && Bytes_eqb (block_ s) block then ret None
  else
    upd_self (set_block_ block) ;;;
    _ <- Write ;;
    ret None.

Definition CommitBlock (fuel : nat) : M zx_status_t :=
  s <- get_self ;;
  let block := block_ s in
  for_locations fuel (CommitBlock_body block) ;;;
  ret ZX_OK.

Definition SealBlock (key : Bytes) (slot : Z) : M zx_status_t :=
  s <- get_self ;;
  let off := slot_off s slot in
  let ptext := data_key_ s ++ data_iv_ s in
  chk DeriveSlotKeys key slot ;;
  s <- get_self ;;
  chk ret (AEAD_InitSeal (aead_ s) (wrap_key_ s) (wrap_iv_ s)) ;;
  let sealed :=
    AEAD_Seal (aead_ s) (wrap_key_ s) (wrap_iv_ s) (header_ s) ptext in
  chk ret (fst sealed) ;;
  upd_self (set_wrap_iv_ (fst (snd sealed))) ;;;
  upd_self (fun s => set_block_
              (memcpy_at off (snd (snd sealed)) (block_ s)) s) ;;;
  ret ZX_OK.

(** [OpenBlock].  The two tests after the version is read compare [rc] with
    the callee's status ([rc != f(...)]) instead of assigning it. *)
Definition OpenBlock (key : Bytes) (slot : Z) : M zx_status_t :=
  s <- get_self ;;
  if negb (Bytes_eqb (Bytes_slice 0 GUID_LEN (block_ s))
                     (Bytes_slice 0 GUID_LEN kTypeGuid))
  then ret ZX_ERR_NOT_SUPPORTED else
  upd_self (set_guid_ (Bytes_slice GUID_LEN GUID_LEN (block_ s))) ;;;
  let rc := ZX_OK in
  let version := ntohl_bytes (Bytes_slice (GUID_LEN + GUID_LEN) 4 (block_ s)) in
  c <- Configure version ;;
  if negb (Z.b2z (negb (rc =? c)) =? ZX_OK) then ret rc else
  d <- DeriveSlotKeys key slot ;;
  if negb (Z.b2z (negb (rc =? d)) =? ZX_OK) then ret rc else
  s <- get_self ;;
  let off := slot_off s slot in
  let ctext := Bytes_slice off (slot_len_ s) (block_ s) in
  chk ret (AEAD_InitOpen (aead_ s) (wrap_key_ s)) ;;
  upd_self (set_header_ (Bytes_slice 0 kHeaderLen (block_ s))) ;;;
  s <- get_self ;;
  let opened :=
    AEAD_Open (aead_ s) (wrap_key_ s) (wrap_iv_ s) (header_ s) ctext in
  chk ret (fst opened) ;;
  let iv := Bytes_Split (len (data_iv_ s)) (snd opened) in
  chk ret (fst iv) ;;
  upd_self (set_data_iv_ (snd (snd iv))) ;;;
  let dk := Bytes_Split (len (data_key_ s)) (fst (snd iv)) in
  chk ret (fst dk) ;;
  upd_self (set_data_key_ (snd (snd dk))) ;;;
  if negb (len (fst (snd dk)) =? 0) then ret ZX_ERR_INTERNAL
  else ret ZX_OK.

Definition Open_body (fuel : nat) (key : Bytes) (slot : Z)
    : M (option zx_status_t) :=
  rc <- Read ;;
  if negb (rc =? ZX_OK) then ret None else
  rc <- OpenBlock key slot ;;
  if negb (rc =? ZX_OK) then ret None else
  rc <- CommitBlock fuel ;;
  ret (Some rc).

(** The private [Open(key, slot)]. *)
Definition Open (fuel : nat) (key : Bytes) (slot : Z) : M zx_status_t :=
  r <- for_locations fuel (Open_body fuel key slot) ;;
  match r with
  | Some rc => ret rc
  | None => ret ZX_ERR_ACCESS_DENIED
  end.

(** *** Library methods *)

(** [Create(fd, key)]; [fd] tells whether the descriptor is valid. *)
Definition Superblock_Create (fuel : nat) (fd : bool) (key : Bytes)
    : M zx_status_t :=
  if negb fd then ret ZX_ERR_INVALID_ARGS else
  upd_self (fun _ => new_Superblock) ;;;
  chk Init ;;
  chk CreateBlock ;;
  chk SealBlock key 0 ;;
  chk CommitBlock fuel ;;
  ret ZX_OK.


Definition is_null (b : Bytes) : bool :=
  match b with [] => true | _ => false end.

Definition Enroll (fuel : nat) (key : Bytes) (slot : Z) : M zx_status_t :=
  if kNumSlots <=? slot then ret ZX_ERR_INVALID_ARGS else
  s <- get_self ;;
  if is_null (block_ s) then ret ZX_ERR_BAD_STATE else
  chk SealBlock key slot ;;
  chk CommitBlock fuel ;;
  ret ZX_OK.

Definition Revoke (fuel : nat) (slot : Z) : M zx_status_t :=
  if kNumSlots <=? slot then ret ZX_ERR_INVALID_ARGS else
  s <- get_self ;;
  if is_null (block_ s) then ret ZX_ERR_BAD_STATE else
  let off := slot_off s slot in
  invalid <- draw (Z.to_nat (slot_len_ s)) ;;
  upd_self (fun s => set_block_ (memcpy_at off invalid (block_ s)) s) ;;;
  chk CommitBlock fuel ;;
  ret ZX_OK.

Definition Shred_body : M (option zx_status_t) :=
  rc <- Write ;;
  if negb (rc =? ZX_OK) then ret (Some rc) else ret None.

Definition Shred (fuel : nat) : M zx_status_t :=
  s <- get_self ;;
  if is_null (block_ s) then ret ZX_ERR_BAD_STATE else
  chk Randomize block_ set_block_ ;;
  r <- for_locations fuel Shred_body ;;
  match r with
  | Some rc => ret rc
  | None => upd_self Reset ;;; ret ZX_OK
  end.

(** [GetInfo(out_blk, out_fvm)] with both out-pointers given: the status and
    what was copied out. *)
Definition GetInfo : M (zx_status_t * option (block_info_t * fvm_info_t)) :=
  s <- get_self ;;
  if is_null (block_ s) then ret (ZX_ERR_BAD_STATE, None)
  else ret (ZX_OK, Some (blk_ s, fvm_ s)).

End Methods.

(** ** A concrete platform

    A 4 KiB page, the zxcrypt type GUID, the lengths of AES-128-GCM-SIV,
    AES-256-XTS and SHA-256 as the format uses them, and small stand-ins for
    the crypto library that keep its interface: a key derivation that mixes
    key, salt and label, and an AEAD that masks the plaintext with the key
    and authenticates key, nonce and associated data with a 16-byte tag. *)

Definition ex_PAGE_SIZE : Z := 4096.

Definition ex_kTypeGuid : Bytes :=
  [0x5f; 0xe8; 0xf8; 0x00; 0xb3; 0x6d; 0x11; 0xe7;
   0x80; 0x7a; 0x78; 0x63; 0x72; 0x79; 0x70; 0x74].

Definition ZX_ERR_IO_DATA_INTEGRITY : zx_status_t := -42.

Definition bytes_of_string (s : string) : Bytes :=
  map (fun c => Z.of_nat (nat_of_ascii c)) (list_ascii_of_string s).

Definition ex_HKDF_Init (d : digest_Algorithm) (key salt : Bytes)
    : zx_status_t * Bytes :=
  match d, key with
  | digest_kUninitialized, _ => (ZX_ERR_INVALID_ARGS, [])
  | _, [] => (ZX_ERR_INVALID_ARGS, [])
  | kSHA256, _ => (ZX_OK, salt ++ key)
  end.

Definition ex_HKDF_Derive (prk : Bytes) (label : string) (n : Z)
    : zx_status_t * Bytes :=
  (ZX_OK, Bytes_Resize n (bytes_of_string label ++ prk)).

Definition ex_mask (key : Bytes) (p : Bytes) : Bytes :=
  map (Z.lxor (hd 0 key)) p.

Definition ex_tag (key iv ad : Bytes) : Bytes :=
  Bytes_Resize 16 (rev ad ++ iv ++ key).

Definition ex_AEAD_InitSeal (a : AEAD_Algorithm) (key iv : Bytes)
    : zx_status_t :=
  match a with
  | AEAD_kUninitialized => ZX_ERR_INVALID_ARGS
  | kAES128_GCM_SIV =>
      if (len key =? 16) && (len iv =? 12) then ZX_OK
      else ZX_ERR_INVALID_ARGS
  end.

Definition ex_AEAD_InitOpen (a : AEAD_Algorithm) (key : Bytes)
    : zx_status_t :=
  match a with
  | AEAD_kUninitialized => ZX_ERR_INVALID_ARGS
  | kAES128_GCM_SIV =>
      if len key =? 16 then ZX_OK else ZX_ERR_INVALID_ARGS
  end.

Definition ex_AEAD_Seal (a : AEAD_Algorithm) (key iv ad p : Bytes)
    : zx_status_t * (Bytes * Bytes) :=
  (ZX_OK, (iv, ex_mask key p ++ ex_tag key iv ad)).

Definition ex_AEAD_Open (a : AEAD_Algorithm) (key iv ad c : Bytes)
    : zx_status_t * Bytes :=
  if len c <? 16 then (ZX_ERR_INVALID_ARGS, [])
  else
    let n := (List.length c - 16)%nat in
    if Bytes_eqb (skipn n c) (ex_tag key iv ad)
    then (ZX_OK, ex_mask key (firstn n c))
    else (ZX_ERR_IO_DATA_INTEGRITY, []).

(** A raw 64-block device of 4 KiB blocks, zero-filled, with a working
    allocator and a deterministic entropy stream. *)
Definition ex_raw : Env :=
  mkEnv (ZX_OK, mk_blk 64 4096)
        (ZX_ERR_NOT_SUPPORTED, mk_fvm 0 0)
        (ZX_ERR_NOT_SUPPORTED, mk_resp 0 0 false)
        ZX_ERR_NOT_SUPPORTED
        (fun _ => true) (fun _ => true) (fun _ => true)
        (fun _ => repeat 0 4096) []
        (fun n => Z.of_nat n * 37 + 11) 0.

(** A thin-provisioned volume: 16 KiB slices (four blocks each), 8 virtual
    slices, the last one allocated. *)
Definition ex_fvm : Env :=
  mkEnv (ZX_OK, mk_blk 32 4096)
        (ZX_OK, mk_fvm 16384 8)
        (ZX_OK, mk_resp 1 1 true)
        ZX_OK
        (fun _ => true) (fun _ => true) (fun _ => true)
        (fun _ => repeat 0 4096) []
        (fun n => Z.of_nat n * 37 + 11) 0.

Definition ex_key : Bytes := repeat 1 32.

Definition start (e : Env) : State := mkState new_Superblock e.

Definition ex_platform : Platform :=
  mkPlatform ex_PAGE_SIZE ex_kTypeGuid 16 12 16 32 16 32
    ex_HKDF_Init ex_HKDF_Derive ex_AEAD_InitSeal ex_AEAD_Seal
    ex_AEAD_InitOpen ex_AEAD_Open.

(** A raw device of three blocks: too small for two reserved pairs. *)
Definition ex_tiny : Env :=
  mkEnv (ZX_OK, mk_blk 3 4096)
        (ZX_ERR_NOT_SUPPORTED, mk_fvm 0 0)
        (ZX_ERR_NOT_SUPPORTED, mk_resp 0 0 false)
        ZX_ERR_NOT_SUPPORTED
        (fun _ => true) (fun _ => true) (fun _ => true)
        (fun _ => repeat 0 4096) []
        (fun n => Z.of_nat n * 37 + 11) 0.

(** A block that carries the type GUID, a zero instance GUID and the
    unknown version 2. *)
Definition ex_block_v2 : Bytes :=
  ex_kTypeGuid ++ repeat 0 16 ++ [0; 0; 0; 2] ++ repeat 0 (4096 - 36).

(** The block size and count [Init] works with once they are aligned to
    pages. *)
Definition aligned_block_size (P : Platform) (e : Env) : Z :=
  let bs := wrap32 (block_size (snd (info_reply e))) in
  if bs <? p_PAGE_SIZE P then p_PAGE_SIZE P else bs.

Definition aligned_block_count (P : Platform) (e : Env) : Z :=
  let bs := wrap32 (block_size (snd (info_reply e))) in
  let bc := wrap64 (block_count (snd (info_reply e))) in
  if bs <? p_PAGE_SIZE P then bc / (p_PAGE_SIZE P / bs) else bc.

(** The block size is a non-zero divisor or multiple of the page size. *)
Definition page_alignable (P : Platform) (e : Env) : Prop :=
  let bs := wrap32 (block_size (snd (info_reply e))) in
  (bs < p_PAGE_SIZE P /\ bs <> 0 /\ p_PAGE_SIZE P mod bs = 0) \/
  (p_PAGE_SIZE P <= bs /\ p_PAGE_SIZE P <> 0 /\ bs mod p_PAGE_SIZE P = 0).

(** The state [Reset] leaves behind, field by field. *)
Definition Uninitialized (s : Superblock) : Prop :=
  blk_ s = mk_blk 0 0 /\ fvm_ s = mk_fvm 0 0 /\ has_fvm_ s = false /\
  block_ s = [] /\ offset_ s = UINT64_MAX /\ guid_ s = [] /\
  aead_ s = AEAD_kUninitialized /\ wrap_key_ s = [] /\ wrap_iv_ s = [] /\
  cipher_ s = Cipher_kUninitialized /\ data_key_ s = [] /\ data_iv_ s = [] /\
  slot_len_ s = 0 /\ digest_ s = digest_kUninitialized.

(** ** Reading the replica loop off the list of locations *)

(** What [Begin] and [Next] look at. *)
Definition iter_eq (a b : Superblock) : Prop :=
  List.length (block_ a) = List.length (block_ b) /\
  fvm_ a = fvm_ b /\ offset_ a = offset_ b.

(** The loop as a recursion over the locations: position the iterator, run
    the body, stop when the body returns. *)
Fixpoint visit (body : M (option zx_status_t)) (locs : list Z)
    : M (option zx_status_t) :=
  match locs with
  | [] => ret None
  | off :: rest =>
      upd_self (set_offset_ off) ;;;
      r <- body ;;
      match r with
      | Some v => ret (Some v)
      | None => visit body rest
      end
  end.

(** Two states that differ at most in the iterator position. *)
Definition upto_offset (s1 s2 : State) : Prop :=
  env s1 = env s2 /\ exists o, self s1 = set_offset_ o (self s2).

(** Two outcomes of a loop: the same state when the body returned, states
    that differ at most in the iterator position when the loop ran out of
    locations. *)
Definition loop_eq (o1 o2 : outcome (option zx_status_t)) : Prop :=
  match o1, o2 with
  | Done (Some v1) s1, Done (Some v2) s2 => v1 = v2 /\ s1 = s2
  | Done None s1, Done None s2 => upto_offset s1 s2
  | Abort, Abort => True
  | OutOfFuel, OutOfFuel => True
  | _, _ => False
  end.

(** Two outcomes with the same value whose states differ at most in the
    iterator position. *)
Definition eq_upto_offset {A} (o1 o2 : outcome A) : Prop :=
  match o1, o2 with
  | Done a1 s1, Done a2 s2 => a1 = a2 /\ upto_offset s1 s2
  | Abort, Abort => True
  | OutOfFuel, OutOfFuel => True
  | _, _ => False
  end.


(** What one [Write] of the buffer [b] at [off] does to the environment. *)
Definition write_at (off : Z) (b : Bytes) (e : Env) : Env :=
  let e1 := set_written (off :: written e) e in
  if write_ok e off
  then set_media (fun o => if o =? off then b else media e o) e1
  else e1.

Definition write_all (b : Bytes) (locs : list Z) (e : Env) : Env :=
  fold_left (fun e off => write_at off b e) locs e.


(** The state [Shred] works on once the buffer is randomized. *)
Definition shredding (s : State) : State :=
  mkState
    (set_block_ (random_bytes (env s) (List.length (block_ (self s))))
                (self s))
    (set_drawn (drawn (env s) + List.length (block_ (self s)))%nat (env s)).




(** The status the private [Open] makes of its loop. *)
Definition Open_result (o : outcome (option zx_status_t))
    : outcome zx_status_t :=
  match o with
  | Done (Some rc) s => Done rc s
  | Done None s => Done ZX_ERR_ACCESS_DENIED s
  | Abort => Abort
  | OutOfFuel => OutOfFuel
  end.

(** The private [Open] in the words of its design: go through the
    locations in order; at each one read the block and try to open it; at
    the first one where both succeed, commit at once and return what the
    commit returns; when none is left, the access is denied. *)
Fixpoint open_any (P : Platform) (fuel : nat) (key : Bytes) (slot : Z)
    (locs : list Z) : M zx_status_t :=
  match locs with
  | [] => ret ZX_ERR_ACCESS_DENIED
  | off :: rest =>
      upd_self (set_offset_ off) ;;;
      r <- Read ;;
      if r =? ZX_OK then
        o <- OpenBlock P key slot ;;
        if o =? ZX_OK then CommitBlock fuel
        else open_any P fuel key slot rest
      else open_any P fuel key slot rest
  end.


(** A method that leaves alone the device, the geometry, the buffer and the
    iterator. *)
Definition same_geometry (a b : Superblock) : Prop :=
  block_ a = block_ b /\ fvm_ a = fvm_ b /\ offset_ a = offset_ b /\
  blk_ a = blk_ b.

Definition keeps {A} (m : M A) : Prop :=
  forall s a s', m s = Done a s' ->
                 env s' = env s /\ same_geometry (self s') (self s).

(** The slot length of version 1 and the bytes the header and the slot
    table take. *)
Definition version1_slot_len (P : Platform) : Z :=
  wrap64 (p_cipher_key_len P + p_cipher_iv_len P + p_aead_tag_len P).

Definition slot_table_end (slot_len : Z) : Z :=
  kHeaderLen + kNumSlots * slot_len.

(** The header and all slots fit in one block. *)
Definition slots_fit (s : Superblock) : Prop :=
  slot_table_end (slot_len_ s) <= block_size (blk_ s).

(** The instance [Configure] leaves behind for version 1 once every buffer
    is resized. *)
Definition Configured (P : Platform) (s : Superblock) : Superblock :=
  set_slot_len_ (version1_slot_len P)
    (set_data_iv_ (Bytes_Resize (p_cipher_iv_len P) (data_iv_ s))
       (set_data_key_ (Bytes_Resize (p_cipher_key_len P) (data_key_ s))
          (set_wrap_iv_ (Bytes_Resize (p_aead_iv_len P) (wrap_iv_ s))
             (set_wrap_key_ (Bytes_Resize (p_aead_key_len P) (wrap_key_ s))
                (set_digest_len_ (p_sha256_len P)
                   (set_digest_ kSHA256
                      (set_cipher_ kAES256_XTS
                         (set_aead_ kAES128_GCM_SIV s)))))))).

(** The allocator grants the four buffers of version 1. *)
Definition allocates_version1 (P : Platform) (e : Env) : Prop :=
  alloc_ok e (p_aead_key_len P) = true /\
  alloc_ok e (p_aead_iv_len P) = true /\
  alloc_ok e (p_cipher_key_len P) = true /\
  alloc_ok e (p_cipher_iv_len P) = true.


(** The instance right after a successful [Init] on the raw device and on
    the thin-provisioned volume. *)
Definition state_of {A} (o : outcome A) (dflt : State) : State :=
  match o with Done _ s => s | _ => dflt end.

Definition ex_ready : State :=
  state_of (Init ex_platform (start ex_raw)) (start ex_raw).

Definition ex_ready_fvm : State :=
  state_of (Init ex_platform (start ex_fvm)) (start ex_fvm).

(** The raw device once [Create] has run on it, and a freshly initialized
    instance on top of it. *)
Definition ex_created : State :=
  state_of (Superblock_Create ex_platform 5 true ex_key (start ex_raw))
           (start ex_raw).

Definition ex_reopened : State :=
  state_of (Init ex_platform (start (env ex_created))) (start ex_raw).

(** The raw device with a second block that cannot be written. *)
Definition ex_flaky : Env :=
  mkEnv (ZX_OK, mk_blk 64 4096)
        (ZX_ERR_NOT_SUPPORTED, mk_fvm 0 0)
        (ZX_ERR_NOT_SUPPORTED, mk_resp 0 0 false)
        ZX_ERR_NOT_SUPPORTED
        (fun _ => true) (fun _ => true) (fun off => negb (off =? 4096))
        (fun _ => repeat 0 4096) []
        (fun n => Z.of_nat n * 37 + 11) 0.

Definition ex_ready_flaky : State :=
  state_of (Init ex_platform (start ex_flaky)) (start ex_flaky).


Definition ex_locs_raw : list Z := [0; 4096; 253952; 258048].





(** ** What the round trip takes from the platform *)









(** ** The round trip *)


(** A location [Open] cannot use with a buffer of [n] bytes: the read
    fails or comes up short, or the block does not start with the type
    GUID. *)
Definition unusable (P : Platform) (e : Env) (n : nat) (off : Z) : Prop :=
  read_ok e off = false \/
  (List.length (media e off) < n)%nat \/
  Bytes_slice 0 GUID_LEN (media e off)
    <> Bytes_slice 0 GUID_LEN (p_kTypeGuid P).


(** [OpenBlock] on a buffer that holds a volume block whose slot opens under
    the key: it returns [ZX_OK], yields the data key and IV and leaves the
    volume open. *)

(** ** More devices *)














(** * Properties *)

Ltac unfold_monad :=
  unfold udiv, umod, ValueOrDie in *;
  unfold check, bind, ret, abort, get_self, get_env, upd_self, upd_env in *.

(** Projections of updated records. *)
Ltac simpl_state :=
  cbn [self env fst snd
       blk_ fvm_ has_fvm_ block_ offset_ guid_ header_ aead_ wrap_key_
       wrap_iv_ cipher_ data_key_ data_iv_ slot_len_ digest_ digest_len_
       set_blk_ set_fvm_ set_has_fvm_ set_block_ set_offset_ set_guid_
       set_header_ set_aead_ set_wrap_key_ set_wrap_iv_ set_cipher_
       set_data_key_ set_data_iv_ set_slot_len_ set_digest_ set_digest_len_
       block_count block_size slice_size vslice_count
       resp_count range_count range_allocated
       info_reply fvm_reply vslice_reply extend_reply alloc_ok read_ok
       write_ok media written entropy drawn
       set_media set_written set_drawn set_vslice_reply Reset] in *.

(** Running a method on a state as far as the conditions are known. *)
Ltac mrun :=
  repeat (progress
    (cbv beta iota; simpl_state;
     cbn [AEAD_GetKeyLen AEAD_GetIVLen AEAD_GetTagLen Cipher_GetKeyLen
          Cipher_GetIVLen digest_GetDigestLen fst snd andb orb negb];
     change (ZX_OK =? ZX_OK) with true)).

Section Properties.

Variable P : Platform.

Lemma Reset_Uninitialized (s : Superblock) : Uninitialized (Reset s).
Proof. unfold Uninitialized, Reset; simpl; repeat split. Qed.

(** ** Configure *)

Lemma Configure_unknown_version (v : Version) (s : State) :
  v <> kAES256_XTS_SHA256 ->
  Configure P v s = Done ZX_ERR_NOT_SUPPORTED s.
Proof.
  intros Hv. unfold Configure.
  destruct (v =? kAES256_XTS_SHA256) eqn:E; [apply Z.eqb_eq in E; tauto|].
  reflexivity.
Qed.

(** C3.  A block that starts with [kTypeGuid] and carries an unknown version
    makes [Configure] fail with [ZX_ERR_NOT_SUPPORTED], yet [OpenBlock]
    returns [ZX_OK]: the failure is compared with [rc], not assigned to it,
    and the stale [rc] is returned before any key is derived. *)
Theorem OpenBlock_unknown_version_returns_OK
    (s : State) (key : Bytes) (slot : Z) :
  Bytes_eqb (Bytes_slice 0 GUID_LEN (block_ (self s)))
            (Bytes_slice 0 GUID_LEN (p_kTypeGuid P)) = true ->
  ntohl_bytes (Bytes_slice (GUID_LEN + GUID_LEN) 4 (block_ (self s)))
    <> kAES256_XTS_SHA256 ->
  let s1 := mkState (set_guid_ (Bytes_slice GUID_LEN GUID_LEN (block_ (self s)))
                               (self s)) (env s) in
  Configure P (ntohl_bytes (Bytes_slice (GUID_LEN + GUID_LEN) 4
                                        (block_ (self s)))) s1
    = Done ZX_ERR_NOT_SUPPORTED s1 /\
  OpenBlock P key slot s = Done ZX_OK s1.
Proof.
  intros Hguid Hver s1. split.
  - apply Configure_unknown_version; assumption.
  - unfold OpenBlock, bind, get_self, upd_self.
    rewrite Hguid. change (negb true) with false. cbv beta iota. fold s1.
    rewrite (Configure_unknown_version _ s1 Hver).
    reflexivity.
Qed.

(** ** Byte buffers *)











(** ** Init *)

Ltac bool_hyps :=
  repeat match goal with
  | H : (_ <? _) = true |- _ => apply Z.ltb_lt in H
  | H : (_ <? _) = false |- _ => apply Z.ltb_ge in H
  | H : (_ <=? _) = true |- _ => apply Z.leb_le in H
  | H : (_ <=? _) = false |- _ => apply Z.leb_gt in H
  | H : (_ =? _) = true |- _ => apply Z.eqb_eq in H
  | H : (_ =? _) = false |- _ => apply Z.eqb_neq in H
  | H : negb _ = true |- _ => apply negb_true_iff in H
  | H : negb _ = false |- _ => apply negb_false_iff in H
  | H : (_ && _) = true |- _ => apply andb_true_iff in H; destruct H
  | H : (_ || _) = false |- _ => apply orb_false_iff in H; destruct H
  end.

(** C9 (amended).  On a device without thin provisioning whose page-aligned
    block count leaves [block_count / 2 < kReservedPairs], [Init] fails with
    [ZX_ERR_NO_SPACE] and leaves the instance reset. *)
Theorem Init_raw_too_small_no_space (s : State) :
  0 <= fst (info_reply (env s)) ->
  page_alignable P (env s) ->
  alloc_ok (env s) (aligned_block_size P (env s)) = true ->
  fst (fvm_reply (env s)) = ZX_ERR_NOT_SUPPORTED ->
  aligned_block_count P (env s) / 2 < kReservedPairs ->
  Init P s = Done ZX_ERR_NO_SPACE (mkState (Reset (self s)) (env s)).
Proof.
  intros Hinfo Halign Halloc Hfvm Hsmall.
  unfold page_alignable, aligned_block_size, aligned_block_count in *.
  assert (Hio : Ioctl (fst (info_reply (env s))) = ZX_OK).
  { unfold Ioctl. destruct (_ <? 0) eqn:E; bool_hyps; [lia|reflexivity]. }
  unfold Init, Init_body, Resize. unfold_monad. cbn [self env fst snd].
  rewrite Hio. change (ZX_OK <? 0) with false. cbv beta iota.
  cbn [self env fst snd block_size block_count set_blk_ blk_].
  destruct (wrap32 (block_size (snd (info_reply (env s)))) <? p_PAGE_SIZE P)
    eqn:E2; bool_hyps.
  - destruct Halign as [(_ & Hnz & Hmod)|(Hge & _)]; [|lia].
    apply Z.eqb_neq in Hnz. rewrite Hnz. cbv beta iota. rewrite Hmod.
    cbn. rewrite Halloc. cbn. rewrite Hfvm.
    change (Ioctl ZX_ERR_NOT_SUPPORTED =? ZX_OK) with false.
    change (Ioctl ZX_ERR_NOT_SUPPORTED =? ZX_ERR_NOT_SUPPORTED) with true.
    cbv beta iota. simpl_state.
    apply Z.ltb_lt in Hsmall. rewrite Hsmall. reflexivity.
  - destruct Halign as [(Hlt & _)|(_ & Hnz & Hmod)]; [lia|].
    apply Z.eqb_neq in Hnz. rewrite Hnz. cbv beta iota. rewrite Hmod.
    cbn. rewrite Halloc. cbn. rewrite Hfvm.
    change (Ioctl ZX_ERR_NOT_SUPPORTED =? ZX_OK) with false.
    change (Ioctl ZX_ERR_NOT_SUPPORTED =? ZX_ERR_NOT_SUPPORTED) with true.
    cbv beta iota. simpl_state.
    apply Z.ltb_lt in Hsmall. rewrite Hsmall. reflexivity.
Qed.


Ltac split_path H :=
  repeat (first
    [ match type of H with
      | context [if ?c then _ else _] => destruct c eqn:?
      | context [match ?c with Some _ => _ | None => _ end] =>
          destruct c eqn:?
      end
    | progress (cbv beta iota in H)
    | progress simpl_state ]).

Lemma Ioctl_not_OK (r : Z) : (Ioctl r <? 0) = true -> Ioctl r <> ZX_OK.
Proof. intros H; apply Z.ltb_lt in H; unfold ZX_OK; lia. Qed.

(** Every return of the body below the guard leaves it armed, except the
    final [return ZX_OK] after [cancel()]; an armed return never carries
    [ZX_OK]. *)
Lemma Init_body_armed (s0 s1 : State) (rc : zx_status_t) (armed : bool) :
  Init_body P s0 = Done (rc, armed) s1 ->
  if armed then rc <> ZX_OK else rc = ZX_OK.
Proof.
  intros H. unfold Init_body, Resize in H. unfold_monad.
  split_path H; try discriminate; inversion H; subst; clear H;
    try reflexivity; try (apply Ioctl_not_OK; assumption);
    bool_hyps; try assumption; try discriminate;
    try (unfold ZX_OK; lia).
Qed.




(** C8.  When [Init] returns anything but [ZX_OK], the guard has run [Reset]
    and every field [Reset] covers is back in its uninitialized value; when
    it returns [ZX_OK], the guard was cancelled and the state is the one the
    body built. *)
Theorem Init_failure_leaves_Uninitialized
    (s s' : State) (rc : zx_status_t) :
  Init P s = Done rc s' ->
  (rc <> ZX_OK -> Uninitialized (self s')) /\
  (rc = ZX_OK ->
   Init_body P (mkState (Reset (self s)) (env s)) = Done (ZX_OK, false) s').
Proof.
  unfold Init. unfold bind at 1. unfold upd_self at 1. unfold bind at 1.
  destruct (Init_body P _) as [[rc0 armed] s1| |] eqn:Hbody;
    try discriminate.
  pose proof (Init_body_armed _ _ _ _ Hbody) as Harm.
  destruct armed; unfold_monad; simpl; intros H; inversion H; subst; clear H.
  - split; [intros _; apply Reset_Uninitialized | tauto].
  - split; [tauto | intros _; reflexivity].
Qed.


(** ** The replica loop *)

Lemma set_offset_same (s : Superblock) : set_offset_ (offset_ s) s = s.
Proof. destruct s; reflexivity. Qed.

Lemma set_offset_twice (o o' : Z) (s : Superblock) :
  set_offset_ o (set_offset_ o' s) = set_offset_ o s.
Proof. reflexivity. Qed.

Lemma iter_eq_refl (a : Superblock) : iter_eq a a.
Proof. unfold iter_eq; auto. Qed.

Lemma iter_eq_sym (a b : Superblock) : iter_eq a b -> iter_eq b a.
Proof. unfold iter_eq; intuition auto. Qed.

Lemma iter_eq_trans (a b c : Superblock) :
  iter_eq a b -> iter_eq b c -> iter_eq a c.
Proof. unfold iter_eq; intuition congruence. Qed.

Lemma Next_only_offset (a a' : Superblock) (rc : zx_status_t) :
  Next a = Some (rc, a') -> a' = set_offset_ (offset_ a') a.
Proof.
  unfold Next. simpl_state. intros H.
  split_path H; try discriminate; inversion H; subst; reflexivity.
Qed.

Lemma Next_iter_eq (a b a' : Superblock) (rc : zx_status_t) :
  iter_eq a b -> Next a = Some (rc, a') ->
  exists b', Next b = Some (rc, b') /\ iter_eq a' b'.
Proof.
  intros (Hl & Hf & Ho) H. unfold Next in *. simpl_state.
  unfold len in *. rewrite <- Hl, <- Hf, <- Ho.
  split_path H; try discriminate; inversion H; subst; clear H;
    eexists; (split; [reflexivity|]); unfold iter_eq; simpl_state; auto.
Qed.

Lemma iterate_iter_eq (fuel : nat) :
  forall rc a b, iter_eq a b -> iterate fuel rc a = iterate fuel rc b.
Proof.
  induction fuel as [|fuel IH]; intros rc a b Hab; [reflexivity|].
  simpl. destruct (rc =? ZX_ERR_NEXT); [|reflexivity].
  destruct (Next a) as [[rc' a']|] eqn:Ha.
  - destruct (Next_iter_eq _ _ _ _ Hab Ha) as (b' & Hb & Hab').
    rewrite Hb. destruct Hab as (_ & _ & Ho). rewrite Ho.
    rewrite (IH rc' a' b' Hab'). reflexivity.
  - destruct (Next b) as [[rc' b']|] eqn:Hb; [|reflexivity].
    destruct (Next_iter_eq _ _ _ _ (iter_eq_sym _ _ Hab) Hb)
      as (a' & Ha' & _).
    congruence.
Qed.

Lemma upto_offset_refl (s : State) : upto_offset s s.
Proof.
  split; [reflexivity|]. exists (offset_ (self s)).
  symmetry; apply set_offset_same.
Qed.

Lemma upto_offset_position (s1 s2 : State) :
  upto_offset s1 s2 ->
  mkState (set_offset_ (offset_ (self s1)) (self s2)) (env s2) = s1.
Proof.
  intros (He & o & Hs). destruct s1 as [sb1 e1]; simpl in *. subst e1.
  rewrite Hs. simpl_state. reflexivity.
Qed.

(** A body that leaves alone what the iterator looks at, on the states of
    an invariant that does not depend on the iterator position, makes the
    loop the recursion over the list of locations. *)
Lemma for_next_visit
    (Inv : State -> Prop) (body : M (option zx_status_t)) :
  (forall s o, Inv s -> Inv (mkState (set_offset_ o (self s)) (env s))) ->
  (forall s s', Inv s -> body s = Done None s' ->
                Inv s' /\ iter_eq (self s') (self s)) ->
  forall fuel rc s1 s2 locs,
    Inv s1 -> upto_offset s1 s2 ->
    iterate fuel rc (self s1) = Some locs ->
    loop_eq (for_next fuel body rc s1) (visit body locs s2).
Proof.
  intros Hpos Hframe.
  induction fuel as [|fuel IH]; intros rc s1 s2 locs Hinv Hrel Hit;
    [discriminate|].
  simpl in Hit |- *.
  destruct (rc =? ZX_ERR_NEXT).
  - destruct (Next (self s1)) as [[rc' sb']|] eqn:HN; [|discriminate].
    destruct (iterate fuel rc' sb') as [rest|] eqn:Hrest; [|discriminate].
    simpl in Hit. inversion Hit; subst locs; clear Hit.
    simpl. unfold bind at 1 3. unfold upd_self at 1. unfold bind at 2.
    rewrite (upto_offset_position _ _ Hrel).
    destruct (body s1) as [[v|] s'| |] eqn:Hb; simpl; auto.
    destruct (Hframe _ _ Hinv Hb) as (Hinv' & Heq).
    destruct (Next_iter_eq _ _ _ _ (iter_eq_sym _ _ Heq) HN)
      as (sb'' & HN' & Heq').
    unfold bind, NextM. rewrite HN'.
    apply IH.
    + rewrite (Next_only_offset _ _ _ HN'). apply (Hpos s'); assumption.
    + split; [reflexivity|]. simpl. exists (offset_ sb'').
      apply (Next_only_offset _ _ _ HN').
    + simpl. rewrite <- (iterate_iter_eq fuel rc' _ _ Heq'). assumption.
  - inversion Hit; subst. simpl. assumption.
Qed.

Lemma for_locations_visit
    (Inv : State -> Prop) (body : M (option zx_status_t)) :
  (forall s o, Inv s -> Inv (mkState (set_offset_ o (self s)) (env s))) ->
  (forall s s', Inv s -> body s = Done None s' ->
                Inv s' /\ iter_eq (self s') (self s)) ->
  forall fuel s locs,
    Inv s -> locations fuel (self s) = Some locs ->
    loop_eq (for_locations fuel body s) (visit body locs s).
Proof.
  intros Hpos Hframe fuel s locs Hinv Hloc.
  unfold for_locations, bind, BeginM. unfold locations in Hloc.
  destruct (Begin (self s)) as [rc sb] eqn:HB.
  assert (Hsb : exists o, sb = set_offset_ o (self s)).
  { unfold Begin in HB. destruct (_ =? 0); inversion HB; subst.
    - exists (offset_ (self s)). symmetry; apply set_offset_same.
    - exists 0. reflexivity. }
  destruct Hsb as (o & Hsb).
  apply (for_next_visit Inv body Hpos Hframe).
  - subst sb. apply (Hpos s); assumption.
  - split; [reflexivity|]. exists o. assumption.
  - assumption.
Qed.


(** ** The locations *)

Section Slices.

Variable s0 : Superblock.
Variable n : nat.

Let bs := len (block_ s0).
Let ss := slice_size (fvm_ s0).
Let vc := vslice_count (fvm_ s0).

Hypothesis bs_pos : 0 < bs.
Hypothesis n_pos : (0 < n)%nat.
Hypothesis ss_blocks : ss = Z.of_nat n * bs.
Hypothesis vc_nonneg : 0 <= vc.
Hypothesis no_overflow : (vc + 2) * ss < 2 ^ 64.

Lemma ss_pos : 0 < ss.
Proof. rewrite ss_blocks. nia. Qed.

Lemma in_slice_mod (base x : Z) :
  base mod ss = 0 -> 0 <= x < ss -> (base + x) mod ss = x.
Proof.
  intros Hb Hx. pose proof ss_pos.
  rewrite <- Z.add_mod_idemp_l by lia. rewrite Hb. simpl.
  apply Z.mod_small; assumption.
Qed.

(** The iterator inside one slice that starts at [base]: it yields the
    remaining blocks of the slice, then either jumps to the last slice (from
    the first one) or stops. *)
Lemma iterate_slice (base : Z) :
  0 <= base -> base mod ss = 0 -> base + ss < 2 ^ 64 ->
  forall m k fuel o,
    (S m + k = n)%nat -> o = base + Z.of_nat k * bs ->
    iterate (S m + fuel) ZX_ERR_NEXT (set_offset_ o s0) =
    option_map
      (app (map (fun i => base + Z.of_nat i * bs) (seq k (S m))))
      (if base + ss <=? ss
       then iterate fuel ZX_ERR_NEXT
              (set_offset_ (wrap64 ((vc + 1) * ss)) s0)
       else iterate fuel ZX_ERR_STOP (set_offset_ (base + ss) s0)).
Proof.
  intros Hb0 Hbm Hbs. pose proof ss_pos as Hss.
  induction m as [|m IH]; intros k fuel o Hk Ho.
  - (* the last block of the slice *)
    assert (Ho' : o + bs = base + ss).
    { rewrite Ho, ss_blocks. replace (Z.of_nat n) with (Z.of_nat k + 1) by lia.
      ring. }
    change (iterate (1 + fuel) ZX_ERR_NEXT (set_offset_ o s0))
      with (match Next (set_offset_ o s0) with
            | Some (rc', s') =>
                option_map (cons o) (iterate fuel rc' s')
            | None => None
            end).
    assert (Hw : wrap64 (base + ss) = base + ss).
    { unfold wrap64. apply Z.mod_small. lia. }
    assert (Hz : (base + ss) mod ss = 0).
    { rewrite <- Z.add_mod_idemp_l by lia. rewrite Hbm. simpl.
      apply Z.mod_same; lia. }
    unfold Next. simpl_state. fold bs ss vc.
    rewrite Ho', Hw, Hz.
    destruct (ss =? 0) eqn:E; [apply Z.eqb_eq in E; lia|].
    change (negb (0 =? 0) && (0 <? ss)) with false. cbv iota.
    destruct (base + ss <=? ss);
      (destruct (iterate fuel _ _); simpl; [|reflexivity];
       rewrite Ho; reflexivity).
  - (* a block inside the slice *)
    assert (Hin : 0 <= Z.of_nat (S k) * bs < ss).
    { rewrite ss_blocks. split; [nia|].
      apply Z.mul_lt_mono_pos_r; lia. }
    change (iterate (S (S m) + fuel) ZX_ERR_NEXT (set_offset_ o s0))
      with (match Next (set_offset_ o s0) with
            | Some (rc', s') =>
                option_map (cons o) (iterate (S m + fuel) rc' s')
            | None => None
            end).
    assert (Ho' : o + bs = base + Z.of_nat (S k) * bs).
    { rewrite Ho. replace (Z.of_nat (S k)) with (Z.of_nat k + 1) by lia.
      ring. }
    assert (Hw : wrap64 (base + Z.of_nat (S k) * bs)
                 = base + Z.of_nat (S k) * bs).
    { unfold wrap64. apply Z.mod_small. lia. }
    unfold Next. simpl_state. fold bs ss vc.
    rewrite Ho', Hw, (in_slice_mod base _ Hbm Hin).
    destruct (ss =? 0) eqn:E; [apply Z.eqb_eq in E; lia|].
    destruct (Z.of_nat (S k) * bs =? 0) eqn:E1; [apply Z.eqb_eq in E1; nia|].
    destruct (Z.of_nat (S k) * bs <? ss) eqn:E2; [|apply Z.ltb_ge in E2; lia].
    simpl negb. simpl andb. cbv iota.
    change (set_offset_ (base + Z.of_nat (S k) * bs) (set_offset_ o s0))
      with (set_offset_ (base + Z.of_nat (S k) * bs) s0).
    rewrite (IH (S k) fuel _ ltac:(lia) eq_refl).
    destruct (if base + ss <=? ss then _ else _); simpl; [|reflexivity].
    rewrite Ho. reflexivity.
Qed.

(** C4.  What the iterator does.  With a non-empty block buffer of [bs]
    bytes, a slice of [n >= 1] blocks and no 64-bit overflow up to the end of
    the last reserved slice, [Begin]/[Next] yield exactly [2 * n] offsets and
    stop: the [n] blocks of the first reserved slice, then the [n] blocks of
    the last reserved slice, which starts at
    [(vslice_count + 1) * slice_size].  That is every block of the two
    slices, and [2 * kReservedPairs] offsets only when a slice holds
    [kReservedPairs] blocks. *)
Theorem locations_two_slices (fuel : nat) :
  (2 * n < fuel)%nat ->
  locations fuel s0 =
  Some (map (fun i => Z.of_nat i * bs) (seq 0 n)
        ++ map (fun i => (vc + 1) * ss + Z.of_nat i * bs) (seq 0 n)).
Proof.
  intros Hfuel. pose proof ss_pos as Hss.
  unfold locations, Begin. fold ss.
  destruct (ss =? 0) eqn:E; [apply Z.eqb_eq in E; lia|].
  set (m := (n - 1)%nat).
  assert (Hn : S m = n) by (unfold m; lia).
  replace fuel with (S m + (S m + S (fuel - 2 * S m - 1)))%nat by lia.
  rewrite (iterate_slice 0 ltac:(lia) (Z.mod_0_l ss ltac:(lia)) ltac:(nia)
             m 0%nat _ 0 ltac:(lia) ltac:(simpl; lia)).
  destruct (0 + ss <=? ss) eqn:E0; [|apply Z.leb_gt in E0; lia].
  assert (Hw : wrap64 ((vc + 1) * ss) = (vc + 1) * ss).
  { unfold wrap64. apply Z.mod_small. pose proof no_overflow. nia. }
  rewrite Hw.
  assert (H1 : 0 <= (vc + 1) * ss) by nia.
  assert (H2 : (vc + 1) * ss + ss < 2 ^ 64).
  { replace ((vc + 1) * ss + ss) with ((vc + 2) * ss) by ring.
    exact no_overflow. }
  rewrite (iterate_slice ((vc + 1) * ss) H1 (Z.mod_mul (vc + 1) ss ltac:(lia)) H2
             m 0%nat _ ((vc + 1) * ss) ltac:(lia) ltac:(simpl; lia)).
  assert (H3 : 0 < (vc + 1) * ss) by (apply Z.mul_pos_pos; lia).
  destruct ((vc + 1) * ss + ss <=? ss) eqn:E1; [apply Z.leb_le in E1; lia|].
  simpl iterate. cbn [option_map].
  rewrite app_nil_r, Hn. reflexivity.
Qed.


End Slices.


(** ** Device methods *)

Lemma Write_spec (s : State) :
  Write s =
  Done (if write_ok (env s) (offset_ (self s)) then ZX_OK else ZX_ERR_IO)
       (mkState (self s)
                (write_at (offset_ (self s)) (block_ (self s)) (env s))).
Proof.
  unfold Write, write_at. unfold_monad. simpl_state.
  destruct (write_ok (env s) (offset_ (self s))); reflexivity.
Qed.

Lemma write_at_write_ok (off : Z) (b : Bytes) (e : Env) :
  write_ok (write_at off b e) = write_ok e.
Proof. unfold write_at. destruct (write_ok e off); reflexivity. Qed.


Lemma write_at_written (off : Z) (b : Bytes) (e : Env) :
  written (write_at off b e) = off :: written e.
Proof. unfold write_at. destruct (write_ok e off); reflexivity. Qed.

Lemma write_all_write_ok (b : Bytes) (locs : list Z) :
  forall e, write_ok (write_all b locs e) = write_ok e.
Proof.
  unfold write_all.
  induction locs as [|off rest IH]; intros e; [reflexivity|].
  simpl. rewrite IH. apply write_at_write_ok.
Qed.

Lemma write_all_written (b : Bytes) (locs : list Z) :
  forall e, written (write_all b locs e) = rev locs ++ written e.
Proof.
  unfold write_all.
  induction locs as [|off rest IH]; intros e; [reflexivity|].
  simpl. rewrite IH, write_at_written.
  rewrite <- app_assoc. reflexivity.
Qed.

Lemma write_all_app (b : Bytes) (l1 l2 : list Z) (e : Env) :
  write_all b (l1 ++ l2) e = write_all b l2 (write_all b l1 e).
Proof. unfold write_all. apply fold_left_app. Qed.

(** ** Shred *)

Lemma visit_Shred_all_ok (locs : list Z) :
  forall s,
    (forall off, In off locs -> write_ok (env s) off = true) ->
    exists o,
      visit Shred_body locs s =
      Done None (mkState (set_offset_ o (self s))
                         (write_all (block_ (self s)) locs (env s))).
Proof.
  induction locs as [|off rest IH]; intros s Hok.
  - exists (offset_ (self s)). simpl. rewrite set_offset_same.
    destruct s; reflexivity.
  - simpl. unfold bind at 1. unfold upd_self at 1. unfold bind at 1.
    unfold Shred_body at 1. unfold bind at 1. rewrite Write_spec.
    simpl_state. rewrite (Hok off (or_introl eq_refl)).
    change (negb (ZX_OK =? ZX_OK)) with false. cbv iota. unfold ret at 1.
    match goal with |- context [visit Shred_body rest ?st] =>
      destruct (IH st) as (o & Ho) end.
    { intros o Hin. simpl_state. rewrite write_at_write_ok.
      apply Hok. right; assumption. }
    exists o. rewrite Ho. reflexivity.
Qed.

Lemma visit_Shred_first_error (pre : list Z) (off : Z) (post : list Z) :
  forall s,
    (forall o, In o pre -> write_ok (env s) o = true) ->
    write_ok (env s) off = false ->
    visit Shred_body (pre ++ off :: post) s =
    Done (Some ZX_ERR_IO)
         (mkState (set_offset_ off (self s))
                  (write_at off (block_ (self s))
                            (write_all (block_ (self s)) pre (env s)))).
Proof.
  induction pre as [|p pre IH]; intros s Hok Hbad.
  - simpl. unfold bind at 1. unfold upd_self at 1. unfold bind at 1.
    unfold Shred_body at 1. unfold bind at 1. rewrite Write_spec.
    simpl_state. rewrite Hbad. reflexivity.
  - simpl. unfold bind at 1. unfold upd_self at 1. unfold bind at 1.
    unfold Shred_body at 1. unfold bind at 1. rewrite Write_spec.
    simpl_state. rewrite (Hok p (or_introl eq_refl)).
    change (negb (ZX_OK =? ZX_OK)) with false. cbv iota. unfold ret at 1.
    rewrite IH; simpl_state.
    + reflexivity.
    + intros o Hin. rewrite write_at_write_ok. apply Hok. right; assumption.
    + rewrite write_at_write_ok. assumption.
Qed.


Lemma loop_eq_returned (o : outcome (option zx_status_t))
    (v : zx_status_t) (s2 : State) :
  loop_eq o (Done (Some v) s2) -> o = Done (Some v) s2.
Proof.
  destruct o as [[v1|] s1| |]; simpl; try tauto.
  intros (-> & ->); reflexivity.
Qed.

Lemma loop_eq_finished (o : outcome (option zx_status_t)) (s2 : State) :
  loop_eq o (Done None s2) ->
  exists s1, o = Done None s1 /\ upto_offset s1 s2.
Proof.
  destruct o as [[v1|] s1| |]; simpl; try tauto.
  intros H; exists s1; auto.
Qed.

Lemma locations_iter_eq (fuel : nat) (a b : Superblock) :
  List.length (block_ a) = List.length (block_ b) -> fvm_ a = fvm_ b ->
  locations fuel a = locations fuel b.
Proof.
  intros Hl Hf. unfold locations, Begin. rewrite Hf.
  destruct (slice_size (fvm_ b) =? 0).
  - destruct fuel; reflexivity.
  - apply iterate_iter_eq. unfold iter_eq; simpl_state; auto.
Qed.

Lemma random_bytes_length (e : Env) (n : nat) :
  List.length (random_bytes e n) = n.
Proof. unfold random_bytes. rewrite length_map, length_seq. reflexivity. Qed.

Lemma Shred_body_frame (s s' : State) :
  True -> Shred_body s = Done None s' ->
  True /\ iter_eq (self s') (self s).
Proof.
  intros _ H. split; [exact I|].
  unfold Shred_body, bind in H. rewrite Write_spec in H.
  destruct (negb _); inversion H; subst. apply iter_eq_refl.
Qed.

(** C6 (amended).  [Shred] overwrites the locations with the randomized
    buffer in iterator order.  When every write goes through it resets the
    instance and returns [ZX_OK].  At the first write that fails it returns
    that error at once: the locations after it are not written, although
    those before it have been overwritten, and the instance is not reset. *)
Theorem Shred_stops_at_first_write_error
    (fuel : nat) (s : State) (locs : list Z) :
  is_null (block_ (self s)) = false ->
  locations fuel (self s) = Some locs ->
  ((forall off, In off locs -> write_ok (env s) off = true) ->
   Shred fuel s =
   Done ZX_OK
        (mkState (Reset (self s))
                 (write_all (block_ (self (shredding s))) locs
                            (env (shredding s))))) /\
  (forall pre off post,
     locs = pre ++ off :: post ->
     (forall o, In o pre -> write_ok (env s) o = true) ->
     write_ok (env s) off = false ->
     Shred fuel s =
     Done ZX_ERR_IO
          (mkState (set_offset_ off (self (shredding s)))
                   (write_at off (block_ (self (shredding s)))
                      (write_all (block_ (self (shredding s))) pre
                                 (env (shredding s)))))).
Proof.
  intros Hnull Hloc.
  assert (Hloc' : locations fuel (self (shredding s)) = Some locs).
  { rewrite <- Hloc. apply locations_iter_eq; simpl_state;
      [apply random_bytes_length | reflexivity]. }
  assert (Hrun : Shred fuel s =
                 match for_locations fuel Shred_body (shredding s) with
                 | Done (Some rc) s' => Done rc s'
                 | Done None s' =>
                     Done ZX_OK (mkState (Reset (self s')) (env s'))
                 | Abort => Abort
                 | OutOfFuel => OutOfFuel
                 end).
  { set (X := for_locations fuel Shred_body (shredding s)).
    unfold Shred, Randomize, draw. unfold_monad. rewrite Hnull.
    change (ZX_OK =? ZX_OK) with true. cbv beta iota.
    match goal with |- context [for_locations fuel Shred_body ?st] =>
      change (for_locations fuel Shred_body st) with X end.
    destruct X as [[v|] s'| |]; reflexivity. }
  pose proof (for_locations_visit (fun _ => True) Shred_body
                (fun _ _ _ => I) Shred_body_frame fuel (shredding s) locs
                I Hloc') as Hvisit.
  split.
  - intros Hok.
    destruct (visit_Shred_all_ok locs (shredding s)) as (o & Hv).
    { intros off Hin. simpl_state. apply Hok; assumption. }
    rewrite Hv in Hvisit.
    destruct (loop_eq_finished _ _ Hvisit) as (s1 & H1 & He & o' & Hs).
    rewrite Hrun, H1. rewrite He, Hs. reflexivity.
  - intros pre off post Hsplit Hok Hbad. subst locs.
    rewrite (visit_Shred_first_error pre off post (shredding s)) in Hvisit.
    + rewrite Hrun, (loop_eq_returned _ _ _ Hvisit). reflexivity.
    + intros o Hin. simpl_state. apply Hok; assumption.
    + simpl_state. assumption.
Qed.


Lemma for_next_Shred_body_returned (fuel : nat) :
  forall rc s v s',
    for_next fuel Shred_body rc s = Done (Some v) s' -> v <> ZX_OK.
Proof.
  induction fuel as [|fuel IH]; intros rc s v s' H; [discriminate|].
  simpl in H. destruct (rc =? ZX_ERR_NEXT); [|discriminate].
  unfold bind at 1 in H. unfold Shred_body at 1 in H.
  unfold bind at 1 in H. rewrite Write_spec in H.
  destruct (write_ok (env s) (offset_ (self s))).
  - change (negb (ZX_OK =? ZX_OK)) with false in H. cbv iota in H.
    unfold ret at 1 in H. unfold bind in H.
    destruct (NextM _) as [rc' s1| |]; try discriminate.
    eapply IH; eassumption.
  - change (negb (ZX_ERR_IO =? ZX_OK)) with true in H. cbv iota in H.
    unfold ret in H. inversion H. discriminate.
Qed.

(** C10 (amended).  After a successful [Shred] the instance is reset, and a
    later [Shred], [GetInfo], or [Enroll]/[Revoke] with a slot below
    [kNumSlots] returns [ZX_ERR_BAD_STATE] and changes nothing; [Enroll] and
    [Revoke] check the slot first and return [ZX_ERR_INVALID_ARGS] for a
    slot that is out of range. *)
Theorem Shred_then_bad_state (fuel : nat) (s s' : State) :
  Shred fuel s = Done ZX_OK s' ->
  Uninitialized (self s') /\
  (forall fuel', Shred fuel' s' = Done ZX_ERR_BAD_STATE s') /\
  GetInfo s' = Done (ZX_ERR_BAD_STATE, None) s' /\
  (forall fuel' key slot,
     Enroll P fuel' key slot s' =
     Done (if kNumSlots <=? slot then ZX_ERR_INVALID_ARGS
           else ZX_ERR_BAD_STATE) s') /\
  (forall fuel' slot,
     Revoke fuel' slot s' =
     Done (if kNumSlots <=? slot then ZX_ERR_INVALID_ARGS
           else ZX_ERR_BAD_STATE) s').
Proof.
  intros H.
  assert (Hreset : exists s1, self s' = Reset s1).
  { unfold Shred, Randomize, draw in H. unfold_monad.
    destruct (is_null (block_ (self s))); [inversion H; discriminate|].
    change (ZX_OK =? ZX_OK) with true in H. cbv beta iota in H.
    unfold for_locations, bind in H.
    destruct (BeginM _) as [rc s1| |]; try discriminate.
    destruct (for_next fuel Shred_body rc s1) as [[v|] s2| |] eqn:Hloop;
      try discriminate.
    - inversion H; subst.
      exfalso. eapply for_next_Shred_body_returned; [eassumption|reflexivity].
    - inversion H; subst. eexists; reflexivity. }
  destruct Hreset as (s1 & Hs1).
  assert (Hnull : is_null (block_ (self s')) = true)
    by (rewrite Hs1; reflexivity).
  split; [rewrite Hs1; apply Reset_Uninitialized|].
  repeat split; intros.
  - unfold Shred. unfold_monad. rewrite Hnull. reflexivity.
  - unfold GetInfo. unfold_monad. rewrite Hnull. reflexivity.
  - unfold Enroll. unfold_monad.
    destruct (kNumSlots <=? slot); [reflexivity|].
    rewrite Hnull. reflexivity.
  - unfold Revoke. unfold_monad.
    destruct (kNumSlots <=? slot); [reflexivity|].
    rewrite Hnull. reflexivity.
Qed.


(** ** CommitBlock *)

Lemma Bytes_eqb_eq (a : Bytes) : forall b, Bytes_eqb a b = true <-> a = b.
Proof.
  induction a as [|x a IH]; intros [|y b]; simpl; split; intros H;
    try reflexivity; try discriminate.
  - apply andb_true_iff in H. destruct H as (Hx & Hab).
    apply Z.eqb_eq in Hx. apply IH in Hab. congruence.
  - inversion H; subst. rewrite Z.eqb_refl. simpl. apply IH. reflexivity.
Qed.



Lemma Read_spec (s : State) :
  Read s =
  if read_ok (env s) (offset_ (self s)) then
    let got := firstn (List.length (block_ (self s)))
                      (media (env s) (offset_ (self s))) in
    Done (if (List.length got =? List.length (block_ (self s)))%nat
          then ZX_OK else ZX_ERR_IO)
         (mkState (set_block_ (got ++ skipn (List.length got)
                                            (block_ (self s))) (self s))
                  (env s))
  else Done ZX_ERR_IO s.
Proof.
  unfold Read. unfold_monad.
  destruct (read_ok (env s) (offset_ (self s))); simpl; [|reflexivity].
  destruct (_ =? _)%nat; reflexivity.
Qed.














(** ** Open *)

Lemma Read_frame (s s' : State) (r : zx_status_t) :
  Read s = Done r s' ->
  env s' = env s /\ iter_eq (self s') (self s) /\ blk_ (self s') = blk_ (self s).
Proof.
  rewrite Read_spec. destruct (read_ok _ _); intros H; inversion H; subst.
  - simpl_state. repeat split. unfold iter_eq. simpl_state.
    repeat split. rewrite length_app, length_skipn.
    pose proof (firstn_le_length (List.length (block_ (self s)))
                  (media (env s) (offset_ (self s)))).
    rewrite length_firstn in *. lia.
  - repeat split; apply iter_eq_refl.
Qed.

Lemma same_geometry_refl (a : Superblock) : same_geometry a a.
Proof. unfold same_geometry; auto. Qed.

Lemma keeps_ret {A} (a : A) : keeps (ret a).
Proof.
  intros s a' s' H. inversion H; subst.
  split; [reflexivity|apply same_geometry_refl].
Qed.

Lemma keeps_abort {A} : keeps (@abort A).
Proof. intros s a s' H; discriminate. Qed.

Lemma keeps_get_self : keeps get_self.
Proof.
  intros s a s' H. inversion H; subst.
  split; [reflexivity|apply same_geometry_refl].
Qed.

Lemma keeps_get_env : keeps get_env.
Proof.
  intros s a s' H. inversion H; subst.
  split; [reflexivity|apply same_geometry_refl].
Qed.

Lemma keeps_upd_self (f : Superblock -> Superblock) :
  (forall sb, same_geometry (f sb) sb) -> keeps (upd_self f).
Proof.
  intros Hf s a s' H. inversion H; subst. simpl. split; [reflexivity|apply Hf].
Qed.

Lemma keeps_bind {A B} (m : M A) (k : A -> M B) :
  keeps m -> (forall a, keeps (k a)) -> keeps (bind m k).
Proof.
  intros Hm Hk s b s' H. unfold bind in H.
  destruct (m s) as [a s1| |] eqn:E; try discriminate.
  destruct (Hm _ _ _ E) as (He1 & Hb1 & Hf1 & Ho1 & Hk1).
  destruct (Hk a _ _ _ H) as (He2 & Hb2 & Hf2 & Ho2 & Hk2).
  unfold same_geometry. repeat split; congruence.
Qed.

Lemma keeps_check (m k : M zx_status_t) :
  keeps m -> keeps k -> keeps (check m k).
Proof.
  intros Hm Hk. unfold check. apply keeps_bind; [assumption|].
  intros rc. destruct (rc =? ZX_OK); [assumption|apply keeps_ret].
Qed.

Ltac keeps_step :=
  first
    [ progress cbv zeta
    | match goal with
      | |- keeps (ret _) => apply keeps_ret
      | |- keeps abort => apply keeps_abort
      | |- keeps get_self => apply keeps_get_self
      | |- keeps get_env => apply keeps_get_env
      | |- keeps (check _ _) => apply keeps_check
      | |- keeps (bind _ _) => apply keeps_bind; [|intros ?]
      | |- keeps (upd_self _) =>
          apply keeps_upd_self; intros ?; unfold same_geometry; simpl_state;
          repeat split; reflexivity
      | |- keeps (if ?c then _ else _) => destruct c
      | |- keeps (match ?c with Some _ => _ | None => _ end) => destruct c
      end ].

Lemma keeps_Configure (v : Version) : keeps (Configure P v).
Proof.
  unfold Configure, Resize, GetDigestLen_member, ValueOrDie.
  repeat keeps_step.
Qed.

Lemma keeps_DeriveSlotKeys (key : Bytes) (slot : Z) :
  keeps (DeriveSlotKeys P key slot).
Proof. unfold DeriveSlotKeys. repeat keeps_step. Qed.

(** [OpenBlock] touches neither the device nor the geometry, the buffer or
    the iterator. *)
Lemma keeps_OpenBlock (key : Bytes) (slot : Z) :
  keeps (OpenBlock P key slot).
Proof.
  unfold OpenBlock.
  repeat first [ apply keeps_Configure | apply keeps_DeriveSlotKeys
               | keeps_step ].
Qed.

Lemma OpenBlock_frame (key : Bytes) (slot : Z) (s s' : State)
    (r : zx_status_t) :
  OpenBlock P key slot s = Done r s' ->
  env s' = env s /\ block_ (self s') = block_ (self s) /\
  fvm_ (self s') = fvm_ (self s) /\ offset_ (self s') = offset_ (self s) /\
  blk_ (self s') = blk_ (self s).
Proof. intros H. exact (keeps_OpenBlock key slot s r s' H). Qed.

(** ** Configure and the slot table *)

Lemma checked_Some (z v : Z) :
  checked z = Some v -> v = z /\ 0 <= z < 2 ^ 64.
Proof.
  unfold checked. destruct (0 <=? z) eqn:E1; destruct (z <? 2 ^ 64) eqn:E2;
    simpl; intros H; inversion H; subst.
  apply Z.leb_le in E1. apply Z.ltb_lt in E2. auto.
Qed.

Lemma checked_small (z : Z) : 0 <= z < 2 ^ 64 -> checked z = Some z.
Proof.
  intros (H0 & H1). unfold checked.
  apply Z.leb_le in H0. apply Z.ltb_lt in H1. rewrite H0, H1. reflexivity.
Qed.

Lemma version1_slot_len_range : 0 <= version1_slot_len P < 2 ^ 64.
Proof. unfold version1_slot_len, wrap64. apply Z.mod_pos_bound. lia. Qed.

Lemma checked_total (sl total : Z) :
  checked_add (checked_mul (checked sl) kNumSlots) kHeaderLen = Some total ->
  total = slot_table_end sl.
Proof.
  unfold checked_add, checked_mul, slot_table_end.
  destruct (checked sl) as [a|] eqn:E1; [|discriminate].
  destruct (checked (a * kNumSlots)) as [b|] eqn:E2; [|discriminate].
  intros E3.
  apply checked_Some in E1, E2, E3. lia.
Qed.

Lemma checked_total_small (sl : Z) :
  0 <= sl -> slot_table_end sl < 2 ^ 64 ->
  checked_add (checked_mul (checked sl) kNumSlots) kHeaderLen
  = Some (slot_table_end sl).
Proof.
  unfold slot_table_end, kHeaderLen, kNumSlots, GUID_LEN. intros H0 H1.
  unfold checked_add, checked_mul.
  rewrite (checked_small sl) by lia.
  rewrite (checked_small (sl * 16)) by lia.
  rewrite (checked_small (sl * 16 + (16 + 16 + 4))) by lia.
  f_equal. lia.
Qed.

(** A [Configure] that returns [ZX_OK] was given version 1 and leaves a slot
    table that fits the block. *)
Lemma Configure_OK_fits (v : Version) (s s' : State) :
  Configure P v s = Done ZX_OK s' ->
  v = kAES256_XTS_SHA256 /\
  slot_len_ (self s') = version1_slot_len P /\
  slots_fit (self s').
Proof.
  intros H.
  unfold Configure, Resize, GetDigestLen_member in H. unfold_monad.
  simpl_state.
  change (ZX_OK =? ZX_OK) with true in H. cbv beta iota in H.
  split_path H; try discriminate; inversion H; subst; clear H.
  bool_hyps. unfold slots_fit. simpl_state.
  match goal with Hc : checked_add _ _ = Some _ |- _ =>
    apply checked_total in Hc; subst end.
  split; [reflexivity|]. split; [reflexivity|]. assumption.
Qed.

(** Version 1 on a state whose block holds the slot table. *)
Lemma Configure_version1 (s : State) :
  allocates_version1 P (env s) ->
  slot_table_end (version1_slot_len P) < 2 ^ 64 ->
  Configure P kAES256_XTS_SHA256 s =
  Done (if block_size (blk_ (self s))
           <? slot_table_end (version1_slot_len P)
        then ZX_ERR_NOT_SUPPORTED else ZX_OK)
       (mkState (Configured P (self s)) (env s)).
Proof.
  intros (A1 & A2 & A3 & A4) Hsmall.
  pose proof version1_slot_len_range as Hr.
  unfold Configure, Resize, GetDigestLen_member. unfold_monad.
  change (kAES256_XTS_SHA256 =? kAES256_XTS_SHA256) with true.
  mrun. rewrite A1. mrun. rewrite A2. mrun. rewrite A3. mrun.
  rewrite A4. mrun.
  fold (version1_slot_len P).
  rewrite (checked_total_small _ (proj1 Hr) Hsmall).
  unfold Configured. mrun.
  destruct (_ <? _); reflexivity.
Qed.

(** A [Configure] that returns [ZX_OK] leaves
    [kHeaderLen + kNumSlots * slot_len_ <= block_size], with [slot_len_] the
    sum of the data key, data IV and tag lengths of the version; whatever
    [Configure] returns for a block too small for the slot table, it is not
    [ZX_OK]; and when the version is known and the buffers are allocated it
    is [ZX_ERR_NOT_SUPPORTED]. *)
Theorem Configure_slots_fit (v : Version) (s : State) :
  (forall s',
     Configure P v s = Done ZX_OK s' ->
     slot_len_ (self s') =
       wrap64 (p_cipher_key_len P + p_cipher_iv_len P + p_aead_tag_len P) /\
     kHeaderLen + kNumSlots * slot_len_ (self s')
       <= block_size (blk_ (self s'))) /\
  (forall rc s',
     Configure P v s = Done rc s' ->
     block_size (blk_ (self s)) < slot_table_end (version1_slot_len P) ->
     rc <> ZX_OK) /\
  (v = kAES256_XTS_SHA256 ->
   allocates_version1 P (env s) ->
   slot_table_end (version1_slot_len P) < 2 ^ 64 ->
   block_size (blk_ (self s)) < slot_table_end (version1_slot_len P) ->
   exists s', Configure P v s = Done ZX_ERR_NOT_SUPPORTED s').
Proof.
  repeat split.
  - apply (Configure_OK_fits v s s' H).
  - apply (Configure_OK_fits v s s' H).
  - intros rc s' H Hsmall ->.
    destruct (Configure_OK_fits v s s' H) as (_ & Hsl & Hfit).
    destruct (keeps_Configure v s _ s' H) as (_ & _ & _ & _ & Hblk).
    unfold slots_fit in Hfit. rewrite Hsl, Hblk in Hfit. lia.
  - intros -> Halloc Hov Hsmall.
    rewrite (Configure_version1 s Halloc Hov).
    apply Z.ltb_lt in Hsmall. rewrite Hsmall. eexists; reflexivity.
Qed.


Lemma Open_body_frame (fuel : nat) (key : Bytes) (slot : Z) (s s' : State) :
  True -> Open_body P fuel key slot s = Done None s' ->
  True /\ iter_eq (self s') (self s).
Proof.
  intros _ H. split; [exact I|].
  unfold Open_body in H. unfold bind at 1 in H.
  destruct (Read s) as [r s1| |] eqn:HR; try discriminate.
  destruct (Read_frame _ _ _ HR) as (_ & Hit & _).
  destruct (negb (r =? ZX_OK)).
  - inversion H; subst. assumption.
  - unfold bind at 1 in H.
    destruct (OpenBlock P key slot s1) as [o s2| |] eqn:HO; try discriminate.
    destruct (OpenBlock_frame _ _ _ _ _ HO) as (_ & Hb & Hf & Ho & _).
    destruct (negb (o =? ZX_OK)).
    + inversion H; subst.
      apply (iter_eq_trans _ (self s1)); [|assumption].
      unfold iter_eq. rewrite Hb, Hf, Ho. auto.
    + unfold bind in H. destruct (CommitBlock fuel s2); discriminate.
Qed.

Lemma visit_open_any (fuel : nat) (key : Bytes) (slot : Z) (locs : list Z) :
  forall s,
    Open_result (visit (Open_body P fuel key slot) locs s)
    = open_any P fuel key slot locs s.
Proof.
  induction locs as [|off rest IH]; intros s; [reflexivity|].
  cbn [visit open_any]. unfold Open_body at 1.
  unfold bind, upd_self.
  destruct (Read _) as [r s1| |]; try reflexivity.
  destruct (r =? ZX_OK); cbn [negb]; cbv beta iota.
  - destruct (OpenBlock P key slot s1) as [o s2| |]; try reflexivity.
    destruct (o =? ZX_OK); cbn [negb]; cbv beta iota.
    + destruct (CommitBlock fuel s2); reflexivity.
    + exact (IH s2).
  - exact (IH s1).
Qed.

Lemma Open_result_loop_eq (o1 o2 : outcome (option zx_status_t)) :
  loop_eq o1 o2 -> eq_upto_offset (Open_result o1) (Open_result o2).
Proof.
  destruct o1 as [[v1|] s1| |], o2 as [[v2|] s2| |]; simpl; intros H;
    try contradiction; try exact I.
  - destruct H as (-> & ->). split; [reflexivity|apply upto_offset_refl].
  - split; [reflexivity|assumption].
Qed.

(** C2.  The private [Open(key, slot)] is [open_any] over the locations the
    iterator enumerates: it takes them in iterator order, commits at once
    at the first location where the read and [OpenBlock] both succeed and
    returns the commit's status, and returns [ZX_ERR_ACCESS_DENIED] when
    reading or opening fails at every location.  The two agree on the
    status, on the device and on the instance up to the iterator
    position. *)
Theorem Open_is_open_any
    (fuel : nat) (key : Bytes) (slot : Z) (s : State) (locs : list Z) :
  locations fuel (self s) = Some locs ->
  eq_upto_offset (Open P fuel key slot s) (open_any P fuel key slot locs s).
Proof.
  intros Hloc.
  rewrite <- visit_open_any.
  assert (Hopen : Open P fuel key slot s =
                  Open_result
                    (for_locations fuel (Open_body P fuel key slot) s)).
  { unfold Open, bind.
    destruct (for_locations _ _ s) as [[v|] s'| |]; reflexivity. }
  rewrite Hopen.
  apply Open_result_loop_eq.
  apply (for_locations_visit (fun _ => True) _ (fun _ _ _ => I)
           (Open_body_frame fuel key slot) fuel s locs I Hloc).
Qed.


(** ** Create, then Open *)



(** ** Sealing and opening a slot *)








Lemma below_cases (n : nat) (p : Z -> bool) :
  forallb p (map Z.of_nat (seq 0 n)) = true ->
  forall y, 0 <= y < Z.of_nat n -> p y = true.
Proof.
  intros H y Hy. rewrite forallb_forall in H. apply H.
  apply in_map_iff. exists (Z.to_nat y). split; [lia|].
  apply in_seq. lia.
Qed.

















Lemma set_block_offset_same (sb : Superblock) :
  set_block_ (block_ sb) (set_offset_ (offset_ sb) sb) = sb.
Proof. destruct sb; reflexivity. Qed.

Lemma Bytes_eqb_neq (a b : Bytes) : a <> b -> Bytes_eqb a b = false.
Proof.
  intros H. destruct (Bytes_eqb a b) eqn:E; [|reflexivity].
  apply Bytes_eqb_eq in E. contradiction.
Qed.

(** [Open] passes over a location it cannot use: only the buffer and the
    iterator position change. *)
Lemma open_any_skip (fuel : nat) (k : Bytes) (slot : Z) (off : Z)
    (rest : list Z) (s : State) :
  (16 <= List.length (block_ (self s)))%nat ->
  unusable P (env s) (List.length (block_ (self s))) off ->
  exists b,
    List.length b = List.length (block_ (self s)) /\
    open_any P fuel k slot (off :: rest) s =
    open_any P fuel k slot rest
      (mkState (set_block_ b (set_offset_ off (self s))) (env s)).
Proof.
  intros Hn Hbad.
  cbn [open_any]. unfold bind at 1. unfold upd_self at 1. unfold bind at 1.
  rewrite Read_spec. simpl_state.
  destruct (read_ok (env s) off) eqn:Hr.
  - cbv zeta.
    set (got := firstn (List.length (block_ (self s))) (media (env s) off)).
    destruct (List.length got =? List.length (block_ (self s)))%nat eqn:El.
    + apply Nat.eqb_eq in El.
      rewrite El, skipn_all, app_nil_r. mrun.
      exists got. split; [assumption|].
      destruct Hbad as [Hb|[Hb|Hb]]; [congruence| |].
      * unfold got in El. rewrite length_firstn in El. lia.
      * unfold bind at 1. unfold OpenBlock. unfold bind at 1.
        unfold get_self at 1. simpl_state.
        assert (Hs : Bytes_slice 0 GUID_LEN got
                     = Bytes_slice 0 GUID_LEN (media (env s) off)).
        { unfold Bytes_slice, got. simpl skipn.
          rewrite firstn_firstn. f_equal. unfold GUID_LEN.
          change (Z.to_nat 16) with 16%nat. lia. }
        rewrite Hs, (Bytes_eqb_neq _ _ Hb). mrun.
        unfold ret at 1.
        change (ZX_ERR_NOT_SUPPORTED =? ZX_OK) with false. cbv iota.
        reflexivity.
    + change (ZX_ERR_IO =? ZX_OK) with false. cbv iota.
      eexists. split; [|reflexivity].
      rewrite length_app, length_skipn.
      pose proof (firstn_le_length (List.length (block_ (self s)))
                    (media (env s) off)). fold got in H. lia.
  - change (ZX_ERR_IO =? ZX_OK) with false. cbv iota.
    exists (block_ (self s)). split; [reflexivity|].
    reflexivity.
Qed.

Lemma open_any_skips (fuel : nat) (k : Bytes) (slot : Z) (pre : list Z) :
  forall (rest : list Z) (s : State),
    (16 <= List.length (block_ (self s)))%nat ->
    (forall o, In o pre ->
               unusable P (env s) (List.length (block_ (self s))) o) ->
    exists b o,
      List.length b = List.length (block_ (self s)) /\
      open_any P fuel k slot (pre ++ rest) s =
      open_any P fuel k slot rest
        (mkState (set_block_ b (set_offset_ o (self s))) (env s)).
Proof.
  induction pre as [|p pre IH]; intros rest s Hn Hbad.
  - exists (block_ (self s)), (offset_ (self s)). split; [reflexivity|].
    simpl. rewrite set_block_offset_same. destruct s; reflexivity.
  - destruct (open_any_skip fuel k slot p (pre ++ rest) s Hn
                (Hbad p (or_introl eq_refl))) as (b & Hb & Hstep).
    simpl app. rewrite Hstep.
    destruct (IH rest (mkState (set_block_ b (set_offset_ p (self s)))
                               (env s))) as (b' & o' & Hb' & Hrest).
    + simpl_state. lia.
    + intros o Hin. simpl_state. rewrite Hb. apply Hbad. right; assumption.
    + exists b', o'. simpl_state. split; [congruence|].
      rewrite Hrest. reflexivity.
Qed.



(** The private [Open] runs the body of its loop at the locations, in
    order. *)
Lemma Open_visits
    (fuel : nat) (key : Bytes) (slot : Z) (s : State) (locs : list Z) :
  locations fuel (self s) = Some locs ->
  eq_upto_offset (Open P fuel key slot s)
                 (Open_result (visit (Open_body P fuel key slot) locs s)).
Proof.
  intros Hloc.
  replace (Open P fuel key slot s)
    with (Open_result (for_locations fuel (Open_body P fuel key slot) s)).
  - apply Open_result_loop_eq.
    apply (for_locations_visit (fun _ => True) _ (fun _ _ _ => I)
             (Open_body_frame fuel key slot) fuel s locs I Hloc).
  - unfold Open, bind.
    destruct (for_locations _ _ s) as [[v|] s'| |]; reflexivity.
Qed.









(** ** More of the methods *)








(** When no location can be used, [Open] is denied and has written
    nothing. *)
Theorem Open_denied_without_usable_location
    (fuel : nat) (k : Bytes) (slot : Z) (s : State) (locs : list Z) :
  (16 <= List.length (block_ (self s)))%nat ->
  locations fuel (self s) = Some locs ->
  (forall o, In o locs ->
             unusable P (env s) (List.length (block_ (self s))) o) ->
  exists s',
    Open P fuel k slot s = Done ZX_ERR_ACCESS_DENIED s' /\ env s' = env s.
Proof.
  intros Hn Hloc Hbad.
  pose proof (Open_visits fuel k slot s locs Hloc) as Hrel.
  rewrite visit_open_any in Hrel.
  destruct (open_any_skips fuel k slot locs [] s Hn Hbad)
    as (b & o & _ & Hskip).
  rewrite app_nil_r in Hskip. rewrite Hskip in Hrel.
  cbn [open_any] in Hrel. unfold ret in Hrel.
  destruct (Open P fuel k slot s) as [rc s'| |]; simpl in Hrel;
    try contradiction.
  destruct Hrel as (-> & He & _).
  exists s'. split; [reflexivity|exact He].
Qed.



Lemma checked_pair (bsz : Z) :
  0 < bsz -> 2 * bsz < 2 ^ 64 ->
  checked_mul (checked bsz) kReservedPairs = Some (bsz * 2).
Proof.
  intros H0 H1. unfold checked_mul, kReservedPairs.
  rewrite (checked_small bsz) by lia. apply checked_small. lia.
Qed.

Ltac finish_raw bsz cnt :=
  let E := fresh "E" in
  destruct (cnt / 2 <? kReservedPairs) eqn:E;
    [apply Z.ltb_lt in E; lia|];
  rewrite (checked_pair bsz) by lia;
  cbv beta iota; simpl_state;
  destruct (bsz =? 0) eqn:E0; [apply Z.eqb_eq in E0; lia|];
  cbv beta iota; simpl_state;
  eexists; split; [reflexivity|]; simpl_state;
  unfold kReservedPairs in *;
  assert (Hq : bsz * 2 / bsz = 2)
    by (replace (bsz * 2) with (2 * bsz) by lia; apply Z.div_mul; lia);
  assert (Hc2 : 2 <= cnt / 2) by assumption;
  assert (Hc4 : 4 <= cnt)
    by (pose proof (Z.mul_div_le cnt 2 ltac:(lia)); lia);
  assert (Hh : cnt / 2 < 2 ^ 64)
    by (apply Z.div_lt_upper_bound; lia);
  rewrite Hq; unfold wrap64;
  rewrite (Z.mod_small (cnt - 2 * 2)) by lia;
  rewrite (Z.mod_small (cnt / 2 - 2)) by lia;
  change (match bsz with
          | 0 => 0
          | Z.pos y' => Z.pos y'~0
          | Z.neg y' => Z.neg y'~0
          end) with (2 * bsz);
  split; [f_equal; lia|];
  split; [f_equal; lia|];
  split; [reflexivity|]; split; reflexivity.

(** On a device without thin provisioning that is large enough, [Init]
    returns [ZX_OK] with the geometry it makes up for a raw device: slices
    of [kReservedPairs] blocks, the first and the last of them taken out of
    [vslice_count], four blocks taken out of [block_count], and a zeroed
    buffer of one block; the device is left as it was. *)
Theorem Init_raw_reserves_four_blocks (s : State) :
  0 < p_PAGE_SIZE P < 2 ^ 63 ->
  0 <= fst (info_reply (env s)) ->
  page_alignable P (env s) ->
  alloc_ok (env s) (aligned_block_size P (env s)) = true ->
  fst (fvm_reply (env s)) = ZX_ERR_NOT_SUPPORTED ->
  kReservedPairs <= aligned_block_count P (env s) / 2 ->
  exists s',
    Init P s = Done ZX_OK s' /\
    blk_ (self s') = mk_blk (aligned_block_count P (env s) - 4)
                            (aligned_block_size P (env s)) /\
    fvm_ (self s') = mk_fvm (2 * aligned_block_size P (env s))
                            (aligned_block_count P (env s) / 2 - 2) /\
    has_fvm_ (self s') = false /\
    block_ (self s') = Bytes_Resize (aligned_block_size P (env s)) [] /\
    env s' = env s.
Proof.
  intros Hpage Hinfo Halign Halloc Hfvm Hbig.
  unfold page_alignable, aligned_block_size, aligned_block_count in *.
  assert (Hio : Ioctl (fst (info_reply (env s))) = ZX_OK).
  { unfold Ioctl. destruct (_ <? 0) eqn:E; bool_hyps; [lia|reflexivity]. }
  pose proof (Z.mod_pos_bound (block_size (snd (info_reply (env s))))
                (2 ^ 32) ltac:(lia)) as Hbs.
  pose proof (Z.mod_pos_bound (block_count (snd (info_reply (env s))))
                (2 ^ 64) ltac:(lia)) as Hbc.
  fold (wrap32 (block_size (snd (info_reply (env s))))) in Hbs.
  fold (wrap64 (block_count (snd (info_reply (env s))))) in Hbc.
  unfold Init, Init_body, Resize. unfold_monad. cbn [self env fst snd].
  rewrite Hio. change (ZX_OK <? 0) with false. cbv beta iota.
  cbn [self env fst snd block_size block_count set_blk_ blk_].
  destruct (wrap32 (block_size (snd (info_reply (env s)))) <? p_PAGE_SIZE P)
    eqn:E2; bool_hyps.
  - destruct Halign as [(_ & Hnz & Hmod)|(Hge & _)]; [|lia].
    apply Z.eqb_neq in Hnz. rewrite Hnz. cbv beta iota. rewrite Hmod.
    cbn. rewrite Halloc. cbn. rewrite Hfvm.
    change (Ioctl ZX_ERR_NOT_SUPPORTED =? ZX_OK) with false.
    change (Ioctl ZX_ERR_NOT_SUPPORTED =? ZX_ERR_NOT_SUPPORTED) with true.
    cbv beta iota. simpl_state.
    set (bsz := p_PAGE_SIZE P) in *.
    set (cnt := wrap64 (block_count (snd (info_reply (env s))))
                / (bsz / wrap32 (block_size (snd (info_reply (env s)))))) in *.
    assert (Hcnt : 0 <= cnt < 2 ^ 64).
    { unfold cnt.
      assert (Hd : 1 <= bsz / wrap32 (block_size (snd (info_reply (env s))))).
      { apply Z.div_le_lower_bound; lia. }
      split; [apply Z.div_pos; lia|].
      apply Z.div_lt_upper_bound; [lia|]. nia. }
    finish_raw bsz cnt.
  - destruct Halign as [(Hlt & _)|(_ & Hnz & Hmod)]; [lia|].
    apply Z.eqb_neq in Hnz. rewrite Hnz. cbv beta iota. rewrite Hmod.
    cbn. rewrite Halloc. cbn. rewrite Hfvm.
    change (Ioctl ZX_ERR_NOT_SUPPORTED =? ZX_OK) with false.
    change (Ioctl ZX_ERR_NOT_SUPPORTED =? ZX_ERR_NOT_SUPPORTED) with true.
    cbv beta iota. simpl_state.
    set (bsz := wrap32 (block_size (snd (info_reply (env s))))) in *.
    set (cnt := wrap64 (block_count (snd (info_reply (env s))))) in *.
    finish_raw bsz cnt.
Qed.

(** The HKDF labels of the sixteen slots fit the label buffer untruncated
    and are pairwise different, between slots and between wrap key and wrap
    IV. *)
Theorem slot_labels_distinct (i j : Z) :
  0 <= i < kNumSlots -> 0 <= j < kNumSlots ->
  (snprintf_label kWrapKeyLabel i = snprintf_label kWrapKeyLabel j -> i = j) /\
  (snprintf_label kWrapIvLabel i = snprintf_label kWrapIvLabel j -> i = j) /\
  snprintf_label kWrapKeyLabel i <> snprintf_label kWrapIvLabel j /\
  (String.length (snprintf_label kWrapKeyLabel i) < 15)%nat /\
  (String.length (snprintf_label kWrapIvLabel i) < 15)%nat.
Proof.
  intros Hi Hj.
  set (check := fun a b : Z =>
         implb (String.eqb (snprintf_label kWrapKeyLabel a)
                           (snprintf_label kWrapKeyLabel b)) (a =? b)
         && implb (String.eqb (snprintf_label kWrapIvLabel a)
                              (snprintf_label kWrapIvLabel b)) (a =? b)
         && negb (String.eqb (snprintf_label kWrapKeyLabel a)
                             (snprintf_label kWrapIvLabel b))
         && (String.length (snprintf_label kWrapKeyLabel a) <? 15)%nat
         && (String.length (snprintf_label kWrapIvLabel a) <? 15)%nat).
  assert (H : check i j = true).
  { apply (below_cases 16 (check i)); [|exact Hj].
    apply (below_cases 16
             (fun a => forallb (check a) (map Z.of_nat (seq 0 16))));
      [vm_compute; reflexivity|exact Hi]. }
  unfold check in H.
  apply andb_true_iff in H. destruct H as (H & H5).
  apply andb_true_iff in H. destruct H as (H & H4).
  apply andb_true_iff in H. destruct H as (H & H3).
  apply andb_true_iff in H. destruct H as (H1 & H2).
  split.
  { intros E. apply String.eqb_eq in E. rewrite E in H1.
    apply Z.eqb_eq. exact H1. }
  split.
  { intros E. apply String.eqb_eq in E. rewrite E in H2.
    apply Z.eqb_eq. exact H2. }
  split.
  { intros E. apply String.eqb_eq in E. rewrite E in H3. discriminate. }
  split; apply Nat.ltb_lt; assumption.
Qed.

End Properties.

(** * The properties on the concrete platform *)

Lemma OpenBlock_unknown_version_returns_OK_witness :
  Configure ex_platform 2
    (mkState (set_guid_ (repeat 0 16)
                (set_block_ ex_block_v2 new_Superblock)) ex_raw)
    = Done ZX_ERR_NOT_SUPPORTED
        (mkState (set_guid_ (repeat 0 16)
                    (set_block_ ex_block_v2 new_Superblock)) ex_raw) /\
  OpenBlock ex_platform ex_key 0
    (mkState (set_block_ ex_block_v2 new_Superblock) ex_raw)
    = Done ZX_OK
        (mkState (set_guid_ (repeat 0 16)
                    (set_block_ ex_block_v2 new_Superblock)) ex_raw).
Proof.
  apply (OpenBlock_unknown_version_returns_OK ex_platform
           (mkState (set_block_ ex_block_v2 new_Superblock) ex_raw) ex_key 0).
  - vm_compute; reflexivity.
  - vm_compute; discriminate.
Defined.


(** C9: on the three-block raw device [Init] returns [ZX_ERR_NO_SPACE], not
    [ZX_ERR_NOT_SUPPORTED]. *)
Lemma Init_raw_too_small_is_not_NOT_SUPPORTED :
  fst (fvm_reply ex_tiny) = ZX_ERR_NOT_SUPPORTED /\
  aligned_block_count ex_platform ex_tiny / 2 < kReservedPairs /\
  Init ex_platform (start ex_tiny)
    = Done ZX_ERR_NO_SPACE (mkState (Reset new_Superblock) ex_tiny) /\
  ~ (exists s', Init ex_platform (start ex_tiny)
                = Done ZX_ERR_NOT_SUPPORTED s').
Proof.
  assert (H : Init ex_platform (start ex_tiny)
              = Done ZX_ERR_NO_SPACE (mkState (Reset new_Superblock) ex_tiny))
    by (vm_compute; reflexivity).
  repeat split; try (vm_compute; reflexivity); try exact H.
  intros (s' & Hs'). rewrite H in Hs'. discriminate.
Qed.

Lemma Init_raw_too_small_no_space_witness :
  Init ex_platform (start ex_tiny)
    = Done ZX_ERR_NO_SPACE (mkState (Reset new_Superblock) ex_tiny).
Proof.
  apply (Init_raw_too_small_no_space ex_platform (start ex_tiny)).
  - vm_compute; discriminate.
  - right. vm_compute. repeat split; discriminate.
  - vm_compute; reflexivity.
  - vm_compute; reflexivity.
  - vm_compute; reflexivity.
Defined.

Lemma Init_failure_leaves_Uninitialized_witness :
  (ZX_ERR_NO_SPACE <> ZX_OK ->
   Uninitialized (self (mkState (Reset new_Superblock) ex_tiny))) /\
  (ZX_ERR_NO_SPACE = ZX_OK ->
   Init_body ex_platform (mkState (Reset (self (start ex_tiny))) ex_tiny)
     = Done (ZX_OK, false) (mkState (Reset new_Superblock) ex_tiny)).
Proof.
  apply (Init_failure_leaves_Uninitialized ex_platform (start ex_tiny)).
  vm_compute; reflexivity.
Defined.

(** C4: on the thin-provisioned volume, whose slices hold four blocks, the
    iterator yields eight offsets, not [2 * kReservedPairs]. *)
Lemma locations_fvm_eight_offsets :
  slice_size (fvm_ (self ex_ready_fvm)) <> 0 /\
  locations 9 (self ex_ready_fvm)
    = Some [0; 4096; 8192; 12288; 114688; 118784; 122880; 126976] /\
  forall fuel locs,
    locations fuel (self ex_ready_fvm) = Some locs ->
    Z.of_nat (List.length locs) <> 2 * kReservedPairs.
Proof.
  split; [vm_compute; discriminate|].
  assert (H : forall fuel, (8 < fuel)%nat ->
              locations fuel (self ex_ready_fvm)
              = Some [0; 4096; 8192; 12288; 114688; 118784; 122880; 126976]).
  { intros fuel Hf.
    rewrite (locations_two_slices (self ex_ready_fvm) 4); try assumption;
      vm_compute; try reflexivity; try discriminate; lia. }
  split; [apply H; lia|].
  intros fuel locs Hl.
  destruct (Nat.lt_ge_cases 8 fuel) as [Hf|Hf].
  - rewrite (H fuel Hf) in Hl. inversion Hl; subst. vm_compute. discriminate.
  - do 9 (destruct fuel as [|fuel]; [vm_compute in Hl; discriminate|]). lia.
Qed.

Lemma locations_two_slices_witness :
  locations 5 (self ex_ready) = Some [0; 4096; 253952; 258048].
Proof.
  apply (locations_two_slices (self ex_ready) 2).
  - vm_compute; reflexivity.
  - lia.
  - vm_compute; reflexivity.
  - vm_compute; discriminate.
  - vm_compute; reflexivity.
  - lia.
Defined.

Lemma Open_is_open_any_witness :
  eq_upto_offset (Open ex_platform 5 ex_key 0 ex_reopened)
                 (open_any ex_platform 5 ex_key 0 ex_locs_raw ex_reopened).
Proof.
  apply (Open_is_open_any ex_platform 5 ex_key 0 ex_reopened ex_locs_raw).
  vm_compute; reflexivity.
Defined.


(** C6: with the second location unwritable, [Shred] overwrites the first
    location, returns [ZX_ERR_IO] at the second and never gets to the last
    two, which keep their content. *)
Lemma Shred_returns_at_first_write_error :
  locations 5 (self ex_ready_flaky) = Some ex_locs_raw /\
  exists s',
    Shred 5 ex_ready_flaky = Done ZX_ERR_IO s' /\
    written (env s') = [4096; 0] /\
    media (env s') 0 = block_ (self (shredding ex_ready_flaky)) /\
    media (env s') 0 <> media (env ex_ready_flaky) 0 /\
    media (env s') 253952 = media (env ex_ready_flaky) 253952 /\
    media (env s') 258048 = media (env ex_ready_flaky) 258048.
Proof.
  split; [vm_compute; reflexivity|].
  eexists. split.
  - apply (proj2 (Shred_stops_at_first_write_error 5 ex_ready_flaky
                    ex_locs_raw eq_refl eq_refl) [0] 4096 [253952; 258048]).
    + reflexivity.
    + intros o [<-|[]]. reflexivity.
    + reflexivity.
  - split; [vm_compute; reflexivity|].
    split; [vm_compute; reflexivity|].
    split; [vm_compute; discriminate|].
    split; vm_compute; reflexivity.
Qed.

Lemma Shred_stops_at_first_write_error_witness :
  ((forall off, In off ex_locs_raw -> write_ok (env ex_ready) off = true) ->
   Shred 5 ex_ready =
   Done ZX_OK
        (mkState (Reset (self ex_ready))
                 (write_all (block_ (self (shredding ex_ready))) ex_locs_raw
                            (env (shredding ex_ready))))) /\
  (forall pre off post,
     ex_locs_raw = pre ++ off :: post ->
     (forall o, In o pre -> write_ok (env ex_ready) o = true) ->
     write_ok (env ex_ready) off = false ->
     Shred 5 ex_ready =
     Done ZX_ERR_IO
          (mkState (set_offset_ off (self (shredding ex_ready)))
                   (write_at off (block_ (self (shredding ex_ready)))
                      (write_all (block_ (self (shredding ex_ready))) pre
                                 (env (shredding ex_ready)))))).
Proof.
  apply (Shred_stops_at_first_write_error 5 ex_ready ex_locs_raw).
  - vm_compute; reflexivity.
  - vm_compute; reflexivity.
Defined.

(** The instance a successful [Shred] leaves behind on the raw device. *)
Lemma Shred_ex_ready :
  Shred 5 ex_ready
  = Done ZX_OK (state_of (Shred 5 ex_ready) ex_ready).
Proof. vm_compute; reflexivity. Qed.

(** C10: after a successful [Shred], [Enroll] and [Revoke] with slot 16
    return [ZX_ERR_INVALID_ARGS], not [ZX_ERR_BAD_STATE]. *)
Lemma Enroll_after_Shred_invalid_slot :
  Shred 5 ex_ready = Done ZX_OK (state_of (Shred 5 ex_ready) ex_ready) /\
  Enroll ex_platform 5 ex_key 16 (state_of (Shred 5 ex_ready) ex_ready)
    = Done ZX_ERR_INVALID_ARGS (state_of (Shred 5 ex_ready) ex_ready) /\
  Revoke 5 16 (state_of (Shred 5 ex_ready) ex_ready)
    = Done ZX_ERR_INVALID_ARGS (state_of (Shred 5 ex_ready) ex_ready) /\
  ZX_ERR_INVALID_ARGS <> ZX_ERR_BAD_STATE.
Proof.
  split; [vm_compute; reflexivity|].
  split; [vm_compute; reflexivity|].
  split; [vm_compute; reflexivity|discriminate].
Qed.

Lemma Shred_then_bad_state_witness :
  Uninitialized (self (state_of (Shred 5 ex_ready) ex_ready)) /\
  (forall fuel',
     Shred fuel' (state_of (Shred 5 ex_ready) ex_ready)
     = Done ZX_ERR_BAD_STATE (state_of (Shred 5 ex_ready) ex_ready)) /\
  GetInfo (state_of (Shred 5 ex_ready) ex_ready)
    = Done (ZX_ERR_BAD_STATE, None) (state_of (Shred 5 ex_ready) ex_ready) /\
  (forall fuel' key slot,
     Enroll ex_platform fuel' key slot (state_of (Shred 5 ex_ready) ex_ready)
     = Done (if kNumSlots <=? slot then ZX_ERR_INVALID_ARGS
             else ZX_ERR_BAD_STATE)
            (state_of (Shred 5 ex_ready) ex_ready)) /\
  (forall fuel' slot,
     Revoke fuel' slot (state_of (Shred 5 ex_ready) ex_ready)
     = Done (if kNumSlots <=? slot then ZX_ERR_INVALID_ARGS
             else ZX_ERR_BAD_STATE)
            (state_of (Shred 5 ex_ready) ex_ready)).
Proof.
  apply (Shred_then_bad_state ex_platform 5 ex_ready).
  vm_compute; reflexivity.
Defined.

Lemma Configure_slots_fit_witness :
  slot_len_ (self (state_of (Configure ex_platform 1 ex_ready) ex_ready))
    = wrap64 (32 + 16 + 16) /\
  kHeaderLen
    + kNumSlots
      * slot_len_ (self (state_of (Configure ex_platform 1 ex_ready) ex_ready))
    <= block_size
         (blk_ (self (state_of (Configure ex_platform 1 ex_ready) ex_ready))).
Proof.
  apply (proj1 (Configure_slots_fit ex_platform 1 ex_ready)).
  vm_compute; reflexivity.
Defined.
















Lemma Open_denied_without_usable_location_witness :
  exists s',
    Open ex_platform 5 ex_key 0 ex_ready = Done ZX_ERR_ACCESS_DENIED s' /\
    env s' = env ex_ready.
Proof.
  apply (Open_denied_without_usable_location ex_platform 5 ex_key 0 ex_ready
           ex_locs_raw).
  - replace (List.length (block_ (self ex_ready))) with 4096%nat
      by (vm_compute; reflexivity).
    lia.
  - vm_compute; reflexivity.
  - intros o _. right. right. vm_compute. discriminate.
Defined.



Lemma Init_raw_reserves_four_blocks_witness :
  exists s',
    Init ex_platform (start ex_raw) = Done ZX_OK s' /\
    blk_ (self s') = mk_blk (aligned_block_count ex_platform ex_raw - 4)
                            (aligned_block_size ex_platform ex_raw) /\
    fvm_ (self s') = mk_fvm (2 * aligned_block_size ex_platform ex_raw)
                            (aligned_block_count ex_platform ex_raw / 2 - 2) /\
    has_fvm_ (self s') = false /\
    block_ (self s')
      = Bytes_Resize (aligned_block_size ex_platform ex_raw) [] /\
    env s' = ex_raw.
Proof.
  apply (Init_raw_reserves_four_blocks ex_platform (start ex_raw)).
  - vm_compute. split; reflexivity.
  - vm_compute; discriminate.
  - right. vm_compute. repeat split; discriminate.
  - vm_compute; reflexivity.
  - vm_compute; reflexivity.
  - vm_compute; discriminate.
Defined.

Lemma slot_labels_distinct_witness :
  (snprintf_label kWrapKeyLabel 3 = snprintf_label kWrapKeyLabel 12
   -> 3 = 12) /\
  (snprintf_label kWrapIvLabel 3 = snprintf_label kWrapIvLabel 12
   -> 3 = 12) /\
  snprintf_label kWrapKeyLabel 3 <> snprintf_label kWrapIvLabel 12 /\
  (String.length (snprintf_label kWrapKeyLabel 3) < 15)%nat /\
  (String.length (snprintf_label kWrapIvLabel 3) < 15)%nat.
Proof.
  apply (slot_labels_distinct 3 12); unfold kNumSlots; lia.
Defined.
